(** * KantechCalc: the sizing engine of [KantechCalc.py]

    A shallow embedding of the decision logic of the Kantech DC line
    calculator: per-line requirement derivation, controller selection,
    expansion-module selection, fleet aggregation and licensing.

    Python integers are unbounded, so every count is a [Z].  Screen output
    and the "Press Enter" prompts carry no decision and are left out of the
    calculations; what a function returns (or stores on [self]) is what is
    modelled.  The operations that enter and edit lines are modelled with
    the console entries they read, and the export with the rows it builds. *)

From Stdlib Require Import ZArith List String Bool Lia.
From Stdlib Require Import DecimalString.
Import ListNotations.
Local Open Scope string_scope.
Local Open Scope Z_scope.

(** ** Python values used by the program *)

(** [range(n)]: the integers [0 .. n-1]; empty when [n <= 0]. *)
Definition range (n : Z) : list Z :=
  map Z.of_nat (seq 0 (Z.to_nat n)).

(** A cost that may still be [float('inf')], the initial value of both
    searches.  An [int] compares with [float('inf')] exactly. *)
Inductive pycost : Type :=
| Inf : pycost
| Fin : Z -> pycost.

(** [c < best] for an integer [c] and a possibly infinite [best]. *)
Definition cost_ltb (c : Z) (best : pycost) : bool :=
  match best with
  | Inf => true
  | Fin b => c <? b
  end.

(** [str(n)] for an integer. *)
Definition str (n : Z) : string :=
  NilZero.string_of_int (Z.to_int n).

(** Exceptions the arithmetic of the program can raise. *)
Inductive exn : Type :=
| OverflowError
| ZeroDivisionError.

Inductive result (A : Type) : Type :=
| Ok : A -> result A
| Raise : exn -> result A.
Arguments Ok {A} _.
Arguments Raise {A} _.

Definition bind {A B : Type} (r : result A) (k : A -> result B) : result B :=
  match r with
  | Ok a => k a
  | Raise e => Raise e
  end.

Notation "x <- r ;; k" := (bind r (fun x => k))
  (at level 61, r at next level, right associativity).

(** ** Line requirement model: [DCDevice] *)

Record DCDevice : Type := {
  dc_number : Z;
  smart_card : Z;
  fingerprint : Z;
  door_sensor : Z;
  magnetic_lock : Z;
  electric_lock : Z;
  rex_button : Z;
  push_button : Z;
  break_glass : Z;
  buzzer : Z;
  double_door_lock : Z;
  ddl_sensors : Z
}.

(** The dictionary [{'readers': .., 'inputs': .., 'outputs': ..}]. *)
Record Totals : Type := {
  readers : Z;
  inputs : Z;
  outputs : Z
}.

Definition calculate_totals (self : DCDevice) : Totals :=
  {| readers := smart_card self + fingerprint self;
     inputs := door_sensor self + rex_button self + push_button self +
               break_glass self + buzzer self + magnetic_lock self +
               ddl_sensors self + double_door_lock self;
     outputs := magnetic_lock self + electric_lock self +
                ddl_sensors self + double_door_lock self |}.

(** ** Controller selection *)

(** The dictionary built inside the search loop. *)
Record Solution : Type := {
  sol_kt400 : Z;
  sol_kt2 : Z;
  sol_kt1 : Z;
  sol_readers_provided : Z;
  sol_cost : Z;
  sol_extra_readers : Z
}.

(** The dictionary returned by [select_controllers_for_dc]. *)
Record ControllerInfo : Type := {
  kt400 : Z;
  kt2 : Z;
  kt1 : Z;
  readers_provided : Z;
  cost : Z;
  extra_readers : Z;
  inputs_provided : Z;
  outputs_provided : Z
}.

(** The two loop variables [best_cost] and [best_solution]. *)
Record Search : Type := {
  best_cost : pycost;
  best_solution : option Solution
}.

Definition search_init : Search :=
  {| best_cost := Inf; best_solution := None |}.

(** Body of the innermost loop. *)
Definition try_combination (total_readers : Z) (st : Search)
    (k400 k2 k1 : Z) : Search :=
  let provided := k400 * 4 + k2 * 2 + k1 * 1 in
  let c := k400 * 1400 + k2 * 750 + k1 * 450 in
  if provided >=? total_readers then
    if cost_ltb c (best_cost st) then
      {| best_cost := Fin c;
         best_solution := Some {| sol_kt400 := k400;
                                  sol_kt2 := k2;
                                  sol_kt1 := k1;
                                  sol_readers_provided := provided;
                                  sol_cost := c;
                                  sol_extra_readers := provided - total_readers |} |}
    else st
  else st.

Definition max_kt400 (total_readers : Z) : Z := Z.max 1 (total_readers / 4 + 2).
Definition max_kt2 (total_readers : Z) : Z := Z.max 1 (total_readers / 2 + 2).
Definition max_kt1 (total_readers : Z) : Z := Z.max 1 (total_readers + 2).

(** The three nested [for] loops. *)
Definition controller_search (total_readers : Z) : Search :=
  fold_left (fun st k400 =>
    fold_left (fun st k2 =>
      fold_left (fun st k1 => try_combination total_readers st k400 k2 k1)
                (range (max_kt1 total_readers + 1)) st)
              (range (max_kt2 total_readers + 1)) st)
            (range (max_kt400 total_readers + 1)) search_init.

(** [None] is Python's [None]: no combination found.  A solution dictionary
    is never empty, so [if best_solution:] tests for [None] only. *)
Definition select_controllers_for_dc (dc_requirements : Totals)
    : option ControllerInfo :=
  let total_readers := readers dc_requirements in
  match best_solution (controller_search total_readers) with
  | Some s =>
      Some {| kt400 := sol_kt400 s;
              kt2 := sol_kt2 s;
              kt1 := sol_kt1 s;
              readers_provided := sol_readers_provided s;
              cost := sol_cost s;
              extra_readers := sol_extra_readers s;
              inputs_provided := sol_kt400 s * 16 + sol_kt2 s * 8 + sol_kt1 s * 4;
              outputs_provided := sol_kt400 s * 4 + sol_kt2 s * 2 + sol_kt1 s * 2 |}
  | None => None
  end.

(** ** Float arithmetic of the fallback tier

    The fallback computes [int(np.ceil(shortage / 16))].  [/] on two Python
    integers is true division: the exact quotient rounded once to the nearest
    binary64 value, ties to even, and [OverflowError] when that value is out
    of range.  [np.ceil] and [int] are exact on the rounded value.  A finite
    binary64 value is kept here exactly, as [mant * 2 ^ expo]. *)

Record float64 : Type := {
  mant : Z;
  expo : Z
}.

(** The fraction [n / (d * 2 ^ e)], numerator and denominator. *)
Definition scaled_num (n e : Z) : Z := if 0 <=? e then n else n * 2 ^ (- e).
Definition scaled_den (d e : Z) : Z := if 0 <=? e then d * 2 ^ e else d.

(** [floor (log2 (n / d))] for positive [n] and [d]. *)
Definition ratio_log2 (n d : Z) : Z :=
  let k := Z.log2 n - Z.log2 d in
  if scaled_num n k <? scaled_den d k then k - 1 else k.

(** Nearest integer to [num / den], ties to the even one. *)
Definition round_half_even (num den : Z) : Z :=
  let q := num / den in
  let r := num mod den in
  if 2 * r <? den then q
  else if den <? 2 * r then q + 1
  else if Z.even q then q else q + 1.

(** [n / d] rounded to 53 significant bits (exponent at least -1074), for
    positive [n] and [d]. *)
Definition round_binary64 (n d : Z) : result float64 :=
  let e := Z.max (ratio_log2 n d - 52) (-1074) in
  let m := round_half_even (scaled_num n e) (scaled_den d e) in
  if (0 <=? e) && (2 ^ 1024 <=? m * 2 ^ e) then Raise OverflowError
  else Ok {| mant := m; expo := e |}.

(** [a / b] on Python integers. *)
Definition int_true_divide (a b : Z) : result float64 :=
  if b =? 0 then Raise ZeroDivisionError
  else if a =? 0 then Ok {| mant := 0; expo := 0 |}
  else
    f <- round_binary64 (Z.abs a) (Z.abs b) ;;
    Ok {| mant := Z.sgn a * Z.sgn b * mant f; expo := expo f |}.

(** [int(np.ceil(x))]. *)
Definition int_np_ceil (x : float64) : Z :=
  if 0 <=? expo x then mant x * 2 ^ expo x
  else - ((- mant x) / 2 ^ (- expo x)).

(** ** Expansion selection *)

Record ExpansionModule : Type := {
  em_name : string;
  em_inputs : Z;
  em_outputs : Z;
  em_cost : Z
}.

Definition expansion_modules : list ExpansionModule :=
  [ {| em_name := "inout16 (16/0)"; em_inputs := 16; em_outputs := 0; em_cost := 447 |};
    {| em_name := "inout16 (12/4)"; em_inputs := 12; em_outputs := 4; em_cost := 447 |};
    {| em_name := "inout16 (8/8)"; em_inputs := 8; em_outputs := 8; em_cost := 447 |};
    {| em_name := "inout16 (4/12)"; em_inputs := 4; em_outputs := 12; em_cost := 447 |};
    {| em_name := "inout16 (0/16)"; em_inputs := 0; em_outputs := 16; em_cost := 447 |};
    {| em_name := "in16"; em_inputs := 16; em_outputs := 0; em_cost := 470 |};
    {| em_name := "r8"; em_inputs := 0; em_outputs := 8; em_cost := 470 |} ].

(** [best_solution] while the search runs: its cost may still be infinite. *)
Record Candidate : Type := {
  cand_modules : list string;
  cand_cost : pycost
}.

(** The dictionary [{'modules': .., 'cost': ..}] that is returned. *)
Record Expansion : Type := {
  modules : list string;
  expansion_cost : Z
}.

(** Body of the single-module loop. *)
Definition try_single (input_shortage output_shortage : Z)
    (best : Candidate) (module : ExpansionModule) : Candidate :=
  if (em_inputs module >=? input_shortage) &&
     (em_outputs module >=? output_shortage) then
    if cost_ltb (em_cost module) (cand_cost best) then
      {| cand_modules := [em_name module]; cand_cost := Fin (em_cost module) |}
    else best
  else best.

(** Body of the inner two-module loop. *)
Definition try_pair (input_shortage output_shortage : Z)
    (best : Candidate) (module1 module2 : ExpansionModule) : Candidate :=
  let total_inputs := em_inputs module1 + em_inputs module2 in
  let total_outputs := em_outputs module1 + em_outputs module2 in
  let total_cost := em_cost module1 + em_cost module2 in
  if (total_inputs >=? input_shortage) && (total_outputs >=? output_shortage) then
    if cost_ltb total_cost (cand_cost best) then
      {| cand_modules := [em_name module1; em_name module2];
         cand_cost := Fin total_cost |}
    else best
  else best.

(** Both loops, one after the other, on the same [best_solution]. *)
Definition expansion_search (input_shortage output_shortage : Z) : Candidate :=
  let best := fold_left (try_single input_shortage output_shortage)
                        expansion_modules
                        {| cand_modules := []; cand_cost := Inf |} in
  fold_left (fun best module1 =>
               fold_left (fun best module2 =>
                            try_pair input_shortage output_shortage best module1 module2)
                         expansion_modules best)
            expansion_modules best.

(** The fallback tier: [in16] and [r8] units, counted independently. *)
Definition expansion_fallback (input_shortage output_shortage : Z)
    : result Expansion :=
  let expansion_modules : list string := [] in
  let expansion_cost := 0 in
  st1 <- (if input_shortage >? 0 then
            q <- int_true_divide input_shortage 16 ;;
            let in16_needed := int_np_ceil q in
            Ok ((expansion_modules ++ [("in16 (x" ++ str in16_needed ++ ")")%string])%list,
                expansion_cost + 470 * in16_needed)
          else Ok (expansion_modules, expansion_cost)) ;;
  st2 <- (if output_shortage >? 0 then
            q <- int_true_divide output_shortage 8 ;;
            let r8_needed := int_np_ceil q in
            Ok ((fst st1 ++ [("r8 (x" ++ str r8_needed ++ ")")%string])%list,
                snd st1 + 470 * r8_needed)
          else Ok st1) ;;
  Ok {| modules := fst st2; expansion_cost := snd st2 |}.

Definition calculate_expansion_for_dc
    (dc_inputs dc_outputs controller_inputs controller_outputs : Z)
    : result Expansion :=
  let input_shortage := Z.max 0 (dc_inputs - controller_inputs) in
  let output_shortage := Z.max 0 (dc_outputs - controller_outputs) in
  if (input_shortage =? 0) && (output_shortage =? 0) then
    Ok {| modules := []; expansion_cost := 0 |}
  else
    let best_solution := expansion_search input_shortage output_shortage in
    match cand_cost best_solution with
    | Inf => expansion_fallback input_shortage output_shortage
    | Fin c => Ok {| modules := cand_modules best_solution; expansion_cost := c |}
    end.

(** ** One line, the fleet, and the controller totals

    The callers reach the controller selector through [self]; they are
    written over the selector they call, and instantiated below with
    [select_controllers_for_dc]. *)

(** The dictionary returned by [calculate_single_dc_line]. *)
Record LineResult : Type := {
  lr_dc_number : Z;
  requirements : Totals;
  controllers : ControllerInfo;
  expansion : Expansion;
  total_cost : Z
}.

(** The running totals of the summary loop. *)
Record FleetTotals : Type := {
  grand_total_cost : Z;
  total_kt400 : Z;
  total_kt2 : Z;
  total_kt1 : Z;
  total_expansion_cost : Z
}.

(** What [calculate_all_dc_lines] stores ([self.all_results],
    [self.grand_total]) and prints in its summary. *)
Record FleetResult : Type := {
  all_results : list LineResult;
  totals : FleetTotals
}.

(** The dictionary returned by [calculate_total_controllers]; the
    ['breakdown'] text is absent when there is no line. *)
Record ControllerTotals : Type := {
  total_controllers : Z;
  ct_kt400 : Z;
  ct_kt2 : Z;
  ct_kt1 : Z;
  breakdown : option string
}.

Section Callers.

Variable select : Totals -> option ControllerInfo.

(** [Ok None] is the early [return None]: no controller combination. *)
Definition calculate_single_dc_line_with (dc_line : DCDevice)
    : result (option LineResult) :=
  let dc_totals := calculate_totals dc_line in
  match select dc_totals with
  | None => Ok None
  | Some controller_info =>
      expansion <- calculate_expansion_for_dc
                     (inputs dc_totals) (outputs dc_totals)
                     (inputs_provided controller_info)
                     (outputs_provided controller_info) ;;
      let total_cost := cost controller_info + expansion_cost expansion in
      Ok (Some {| lr_dc_number := dc_number dc_line;
                  requirements := dc_totals;
                  controllers := controller_info;
                  expansion := expansion;
                  total_cost := total_cost |})
  end.

(** Body of the first loop: a line without a result is not appended. *)
Definition collect_line (acc : result (list LineResult)) (dc_line : DCDevice)
    : result (list LineResult) :=
  all_results <- acc ;;
  r <- calculate_single_dc_line_with dc_line ;;
  match r with
  | Some res => Ok (all_results ++ [res])%list
  | None => Ok all_results
  end.

(** Body of the summary loop. *)
Definition accumulate (t : FleetTotals) (res : LineResult) : FleetTotals :=
  {| grand_total_cost := grand_total_cost t + total_cost res;
     total_kt400 := total_kt400 t + kt400 (controllers res);
     total_kt2 := total_kt2 t + kt2 (controllers res);
     total_kt1 := total_kt1 t + kt1 (controllers res);
     total_expansion_cost :=
       total_expansion_cost t + expansion_cost (expansion res) |}.

Definition totals_init : FleetTotals :=
  {| grand_total_cost := 0; total_kt400 := 0; total_kt2 := 0;
     total_kt1 := 0; total_expansion_cost := 0 |}.

(** [Ok None]: the function returns before the summary (no line
    configured, or no line produced a result) and stores nothing. *)
Definition calculate_all_dc_lines_with (dc_lines : list DCDevice)
    : result (option FleetResult) :=
  match dc_lines with
  | [] => Ok None
  | _ =>
      all_results <- fold_left collect_line dc_lines (Ok []) ;;
      match all_results with
      | [] => Ok None
      | _ =>
          Ok (Some {| all_results := all_results;
                      totals := fold_left accumulate all_results totals_init |})
      end
  end.

(** Body of the loop of [calculate_total_controllers], on the triple
    [(total_kt400, total_kt2, total_kt1)]. *)
Definition count_line (acc : Z * Z * Z) (dc_line : DCDevice) : Z * Z * Z :=
  let '(t400, t2, t1) := acc in
  match select (calculate_totals dc_line) with
  | Some controller_info =>
      (t400 + kt400 controller_info,
       t2 + kt2 controller_info,
       t1 + kt1 controller_info)
  | None => acc
  end.

Definition calculate_total_controllers_with (dc_lines : list DCDevice)
    : ControllerTotals :=
  match dc_lines with
  | [] => {| total_controllers := 0; ct_kt400 := 0; ct_kt2 := 0; ct_kt1 := 0;
             breakdown := None |}
  | _ =>
      let '(t400, t2, t1) := fold_left count_line dc_lines (0, 0, 0) in
      {| total_controllers := t400 + t2 + t1;
         ct_kt400 := t400;
         ct_kt2 := t2;
         ct_kt1 := t1;
         breakdown := Some ("kt-400: " ++ str t400 ++ ", kt-2: " ++ str t2 ++
                            ", kt-1: " ++ str t1)%string |}
  end.

End Callers.

Definition calculate_single_dc_line : DCDevice -> result (option LineResult) :=
  calculate_single_dc_line_with select_controllers_for_dc.

Definition calculate_all_dc_lines : list DCDevice -> result (option FleetResult) :=
  calculate_all_dc_lines_with select_controllers_for_dc.

Definition calculate_total_controllers : list DCDevice -> ControllerTotals :=
  calculate_total_controllers_with select_controllers_for_dc.

(** ** Licensing *)

(** An entry of [license_info]: its name and its cost. *)
Record License : Type := {
  lic_name : string;
  lic_cost : Z
}.

Definition license_special : License :=
  {| lic_name := "Kantech Special License"; lic_cost := 0 |}.
Definition license_corporate : License :=
  {| lic_name := "Kantech Corporate License"; lic_cost := 0 |}.
Definition license_global : License :=
  {| lic_name := "Global License"; lic_cost := 0 |}.
Definition license_gateway : License :=
  {| lic_name := "Gateway License"; lic_cost := 500 |}.
Definition license_redundancy : License :=
  {| lic_name := "Redundancy License"; lic_cost := 750 |}.

(** The dictionary stored in [self.license_result]. *)
Record LicenseResult : Type := {
  lres_total_controllers : Z;
  primary_license : string;
  use_redundancy : bool;
  additional_licenses : list License;
  total_license_cost : Z;
  controller_breakdown : ControllerTotals
}.

(** The part of [calculate_license_requirements] after the controller
    totals are known.  [None] is the early return that reports
    "No controllers configured!" and stores no license result. *)
Definition license_decision (controller_totals : ControllerTotals)
    (use_redundancy : bool) : option LicenseResult :=
  let total_controllers := total_controllers controller_totals in
  if total_controllers =? 0 then None
  else
    let '(license_type, additional_licenses) :=
      if use_redundancy then
        ("global",
         [ {| lic_name := lic_name license_gateway;
              lic_cost := lic_cost license_gateway |};
           {| lic_name := lic_name license_redundancy;
              lic_cost := lic_cost license_redundancy |} ])
      else if total_controllers <=? 32 then ("special", [])
      else ("corporate", []) in
    let total_license_cost :=
      if use_redundancy then lic_cost license_gateway + lic_cost license_redundancy
      else 0 in
    Some {| lres_total_controllers := total_controllers;
            primary_license := license_type;
            use_redundancy := use_redundancy;
            additional_licenses := additional_licenses;
            total_license_cost := total_license_cost;
            controller_breakdown := controller_totals |}.

Definition calculate_license_requirements (dc_lines : list DCDevice)
    (use_redundancy : bool) : option LicenseResult :=
  license_decision (calculate_total_controllers dc_lines) use_redundancy.

(** ** Vocabulary of the statements *)

(** Controller combinations [(kt-400, kt-2, kt-1)]. *)
Definition triple_readers (t : Z * Z * Z) : Z :=
  let '(a, b, c) := t in a * 4 + b * 2 + c * 1.

Definition triple_cost (t : Z * Z * Z) : Z :=
  let '(a, b, c) := t in a * 1400 + b * 750 + c * 450.

Definition triple_state (r : Z) (t : Z * Z * Z) : Search :=
  let '(a, b, c) := t in
  {| best_cost := Fin (triple_cost t);
     best_solution := Some {| sol_kt400 := a; sol_kt2 := b; sol_kt1 := c;
                              sol_readers_provided := triple_readers t;
                              sol_cost := triple_cost t;
                              sol_extra_readers := triple_readers t - r |} |}.

(** The combinations in the order the loops visit them. *)
Definition combinations (r : Z) : list (Z * Z * Z) :=
  flat_map (fun a =>
    flat_map (fun b => map (fun c => (a, b, c)) (range (max_kt1 r + 1)))
             (range (max_kt2 r + 1)))
           (range (max_kt400 r + 1)).

Definition in_bounds (r : Z) (t : Z * Z * Z) : Prop :=
  let '(a, b, c) := t in
  0 <= a <= max_kt400 r /\ 0 <= b <= max_kt2 r /\ 0 <= c <= max_kt1 r.

(** The dictionary returned for the combination [t] at demand [r]. *)
Definition controller_info_of (r : Z) (t : Z * Z * Z) : ControllerInfo :=
  let '(a, b, c) := t in
  {| kt400 := a; kt2 := b; kt1 := c;
     readers_provided := triple_readers t;
     cost := triple_cost t;
     extra_readers := triple_readers t - r;
     inputs_provided := a * 16 + b * 8 + c * 4;
     outputs_provided := a * 4 + b * 2 + c * 2 |}.

(** The eleven counts of a tally, and a tally with one count raised by one. *)
Inductive Field : Type :=
| SmartCard | Fingerprint | DoorSensor | MagneticLock | ElectricLock
| RexButton | PushButton | BreakGlass | Buzzer | DoubleDoorLock | DdlSensors.

Definition bump (f g : Field) (v : Z) : Z :=
  match f, g with
  | SmartCard, SmartCard | Fingerprint, Fingerprint | DoorSensor, DoorSensor
  | MagneticLock, MagneticLock | ElectricLock, ElectricLock
  | RexButton, RexButton | PushButton, PushButton | BreakGlass, BreakGlass
  | Buzzer, Buzzer | DoubleDoorLock, DoubleDoorLock
  | DdlSensors, DdlSensors => v + 1
  | _, _ => v
  end.

Definition increase (f : Field) (d : DCDevice) : DCDevice :=
  {| dc_number := dc_number d;
     smart_card := bump f SmartCard (smart_card d);
     fingerprint := bump f Fingerprint (fingerprint d);
     door_sensor := bump f DoorSensor (door_sensor d);
     magnetic_lock := bump f MagneticLock (magnetic_lock d);
     electric_lock := bump f ElectricLock (electric_lock d);
     rex_button := bump f RexButton (rex_button d);
     push_button := bump f PushButton (push_button d);
     break_glass := bump f BreakGlass (break_glass d);
     buzzer := bump f Buzzer (buzzer d);
     double_door_lock := bump f DoubleDoorLock (double_door_lock d);
     ddl_sensors := bump f DdlSensors (ddl_sensors d) |}.

(** Every count of a tally is non-negative, as the input prompts enforce. *)
Definition valid_tally (d : DCDevice) : Prop :=
  0 <= smart_card d /\ 0 <= fingerprint d /\ 0 <= door_sensor d /\
  0 <= magnetic_lock d /\ 0 <= electric_lock d /\ 0 <= rex_button d /\
  0 <= push_button d /\ 0 <= break_glass d /\ 0 <= buzzer d /\
  0 <= double_door_lock d /\ 0 <= ddl_sensors d.

(** A module, or a pair of modules, covers both shortages. *)
Definition single_covers (input_shortage output_shortage : Z)
    (m : ExpansionModule) : Prop :=
  em_inputs m >= input_shortage /\ em_outputs m >= output_shortage.

Definition pair_covers (input_shortage output_shortage : Z)
    (m1 m2 : ExpansionModule) : Prop :=
  em_inputs m1 + em_inputs m2 >= input_shortage /\
  em_outputs m1 + em_outputs m2 >= output_shortage.

(** The candidates of the two search loops, as [best_solution] values. *)
Definition single_candidate (m : ExpansionModule) : Candidate :=
  {| cand_modules := [em_name m]; cand_cost := Fin (em_cost m) |}.

Definition pair_candidate (p : ExpansionModule * ExpansionModule) : Candidate :=
  {| cand_modules := [em_name (fst p); em_name (snd p)];
     cand_cost := Fin (em_cost (fst p) + em_cost (snd p)) |}.

(** The exact ceiling of [n / d], for a positive [d]. *)
Definition ceil_div (n d : Z) : Z := (n + d - 1) / d.

(** The cost the fallback tier is meant to charge. *)
Definition fallback_cost (input_shortage output_shortage : Z) : Z :=
  (if input_shortage >? 0 then 470 * ceil_div input_shortage 16 else 0) +
  (if output_shortage >? 0 then 470 * ceil_div output_shortage 8 else 0).

(** No combination of at most two catalog modules covers the shortages. *)
Definition uncovered (input_shortage output_shortage : Z) : Prop :=
  (forall m, In m expansion_modules ->
     ~ single_covers input_shortage output_shortage m) /\
  (forall m1 m2, In m1 expansion_modules -> In m2 expansion_modules ->
     ~ pair_covers input_shortage output_shortage m1 m2).

(** [c] is the least cost of a covering combination of one or two modules. *)
Definition least_cover_cost (input_shortage output_shortage c : Z) : Prop :=
  ((exists m, In m expansion_modules /\
      single_covers input_shortage output_shortage m /\ c = em_cost m) \/
   (exists m1 m2, In m1 expansion_modules /\ In m2 expansion_modules /\
      pair_covers input_shortage output_shortage m1 m2 /\
      c = em_cost m1 + em_cost m2)) /\
  (forall m, In m expansion_modules ->
     single_covers input_shortage output_shortage m -> c <= em_cost m) /\
  (forall m1 m2, In m1 expansion_modules -> In m2 expansion_modules ->
     pair_covers input_shortage output_shortage m1 m2 ->
     c <= em_cost m1 + em_cost m2).

(** A line with one reader and eight door sensors. *)
Definition line_8_inputs : DCDevice :=
  {| dc_number := 1; smart_card := 1; fingerprint := 0; door_sensor := 8;
     magnetic_lock := 0; electric_lock := 0; rex_button := 0; push_button := 0;
     break_glass := 0; buzzer := 0; double_door_lock := 0; ddl_sensors := 0 |}.

(** Sum of a list of integers. *)
Definition sum_Z (l : list Z) : Z := fold_right Z.add 0 l.

(** Two lines with the same eleven device counts (their numbers may differ). *)
Definition same_devices (d1 d2 : DCDevice) : Prop :=
  smart_card d1 = smart_card d2 /\ fingerprint d1 = fingerprint d2 /\
  door_sensor d1 = door_sensor d2 /\ magnetic_lock d1 = magnetic_lock d2 /\
  electric_lock d1 = electric_lock d2 /\ rex_button d1 = rex_button d2 /\
  push_button d1 = push_button d2 /\ break_glass d1 = break_glass d2 /\
  buzzer d1 = buzzer d2 /\ double_door_lock d1 = double_door_lock d2 /\
  ddl_sensors d1 = ddl_sensors d2.

(** The totals of a list of line results, each summed on its own. *)
Definition totals_of (rs : list LineResult) : FleetTotals :=
  {| grand_total_cost := sum_Z (map total_cost rs);
     total_kt400 := sum_Z (map (fun r => kt400 (controllers r)) rs);
     total_kt2 := sum_Z (map (fun r => kt2 (controllers r)) rs);
     total_kt1 := sum_Z (map (fun r => kt1 (controllers r)) rs);
     total_expansion_cost :=
       sum_Z (map (fun r => expansion_cost (expansion r)) rs) |}.

(** The line results that exist among the outcomes of the lines. *)
Definition kept (outcomes : list (option LineResult)) : list LineResult :=
  flat_map (fun o => match o with Some r => [r] | None => [] end) outcomes.

(** The line of the specification's scenario: two smart-card readers, two
    door sensors and two magnetic locks. *)
Definition scenario_line (n : Z) : DCDevice :=
  {| dc_number := n; smart_card := 2; fingerprint := 0; door_sensor := 2;
     magnetic_lock := 2; electric_lock := 0; rex_button := 0; push_button := 0;
     break_glass := 0; buzzer := 0; double_door_lock := 0; ddl_sensors := 0 |}.

(** A line without reader and with [2 ^ 58 + 16] door sensors. *)
Definition line_huge_inputs : DCDevice :=
  {| dc_number := 1; smart_card := 0; fingerprint := 0;
     door_sensor := 288230376151711760;
     magnetic_lock := 0; electric_lock := 0; rex_button := 0; push_button := 0;
     break_glass := 0; buzzer := 0; double_door_lock := 0; ddl_sensors := 0 |}.

(** The missing inputs plus the missing outputs rounded up to a multiple of
    four: what an inout16 split has to provide. *)
Definition span (input_shortage output_shortage : Z) : Z :=
  input_shortage + 4 * ceil_div output_shortage 4.

(** A line the calculation is meant for: non-negative counts, demands below
    [2 ^ 53]. *)
Definition sized_line (d : DCDevice) : Prop :=
  valid_tally d /\
  inputs (calculate_totals d) < 2 ^ 53 /\
  outputs (calculate_totals d) < 2 ^ 53.

(** The number of controllers the selector chooses for a line. *)
Definition line_units (d : DCDevice) : Z :=
  match select_controllers_for_dc (calculate_totals d) with
  | Some info => kt400 info + kt2 info + kt1 info
  | None => 0
  end.

(** ** Entering and editing lines

    What the prompts read is kept as a list of console entries, in the order
    they are typed.  An entry is classified by what [int(...)] makes of it:
    a number, an empty line (after [strip()]), or text that raises
    [ValueError].  When the entries run out, [input()] raises [EOFError]. *)

Inductive Entry : Type :=
| Number : Z -> Entry
| Blank : Entry
| Invalid : Entry.

(** An operation ends normally with the lines and the entries not yet read,
    or with [EOFError] and the lines as they are at that moment. *)
Inductive Outcome : Type :=
| Done : list DCDevice -> list Entry -> Outcome
| EOFError : list DCDevice -> Outcome.

Definition lines_of (o : Outcome) : list DCDevice :=
  match o with
  | Done l _ => l
  | EOFError l => l
  end.

(** The [devices] list of both functions: the attributes in prompt order. *)
Definition devices : list Field :=
  [SmartCard; Fingerprint; DoorSensor; MagneticLock; ElectricLock; RexButton;
   PushButton; BreakGlass; Buzzer; DoubleDoorLock; DdlSensors].

(** [getattr(dc_line, attr_name)] and [setattr(dc_line, attr_name, value)]. *)
Definition get_field (f : Field) (d : DCDevice) : Z :=
  match f with
  | SmartCard => smart_card d
  | Fingerprint => fingerprint d
  | DoorSensor => door_sensor d
  | MagneticLock => magnetic_lock d
  | ElectricLock => electric_lock d
  | RexButton => rex_button d
  | PushButton => push_button d
  | BreakGlass => break_glass d
  | Buzzer => buzzer d
  | DoubleDoorLock => double_door_lock d
  | DdlSensors => ddl_sensors d
  end.

Definition pick (f g : Field) (v old : Z) : Z :=
  match f, g with
  | SmartCard, SmartCard | Fingerprint, Fingerprint | DoorSensor, DoorSensor
  | MagneticLock, MagneticLock | ElectricLock, ElectricLock
  | RexButton, RexButton | PushButton, PushButton | BreakGlass, BreakGlass
  | Buzzer, Buzzer | DoubleDoorLock, DoubleDoorLock
  | DdlSensors, DdlSensors => v
  | _, _ => old
  end.

Definition set_field (f : Field) (v : Z) (d : DCDevice) : DCDevice :=
  {| dc_number := dc_number d;
     smart_card := pick f SmartCard v (smart_card d);
     fingerprint := pick f Fingerprint v (fingerprint d);
     door_sensor := pick f DoorSensor v (door_sensor d);
     magnetic_lock := pick f MagneticLock v (magnetic_lock d);
     electric_lock := pick f ElectricLock v (electric_lock d);
     rex_button := pick f RexButton v (rex_button d);
     push_button := pick f PushButton v (push_button d);
     break_glass := pick f BreakGlass v (break_glass d);
     buzzer := pick f Buzzer v (buzzer d);
     double_door_lock := pick f DoubleDoorLock v (double_door_lock d);
     ddl_sensors := pick f DdlSensors v (ddl_sensors d) |}.

(** [DCDevice(dc_number=n)]: every count at its default 0. *)
Definition new_line (n : Z) : DCDevice :=
  {| dc_number := n; smart_card := 0; fingerprint := 0; door_sensor := 0;
     magnetic_lock := 0; electric_lock := 0; rex_button := 0; push_button := 0;
     break_glass := 0; buzzer := 0; double_door_lock := 0; ddl_sensors := 0 |}.

(** The [while True] loop of [add_dc_line_interactive] for one device: asks
    again after text that is no number and after a negative number.  [None]
    when the entries run out. *)
Fixpoint prompt_count (entries : list Entry) : option (Z * list Entry) :=
  match entries with
  | [] => None
  | Number value :: rest =>
      if value <? 0 then prompt_count rest else Some (value, rest)
  | Blank :: rest => prompt_count rest
  | Invalid :: rest => prompt_count rest
  end.

(** The [for] loop over the devices of [add_dc_line_interactive]. *)
Fixpoint fill_fields (fields : list Field) (dc_line : DCDevice)
    (entries : list Entry) : option (DCDevice * list Entry) :=
  match fields with
  | [] => Some (dc_line, entries)
  | f :: fs =>
      match prompt_count entries with
      | None => None
      | Some (value, rest) => fill_fields fs (set_field f value dc_line) rest
      end
  end.

(** [input("Press Enter to continue...")] at the end of an operation. *)
Definition press_enter (dc_lines : list DCDevice) (entries : list Entry)
    : Outcome :=
  match entries with
  | [] => EOFError dc_lines
  | _ :: rest => Done dc_lines rest
  end.

Definition add_dc_line_interactive (dc_lines : list DCDevice)
    (entries : list Entry) : Outcome :=
  let dc_number := Z.of_nat (List.length dc_lines) + 1 in
  match fill_fields devices (new_line dc_number) entries with
  | None => EOFError dc_lines
  | Some (dc_line, rest) => press_enter (dc_lines ++ [dc_line])%list rest
  end.

(** The [while True] loop of [edit_dc_line_interactive] for one device: an
    empty entry keeps the current value. *)
Fixpoint prompt_edit (current_value : Z) (entries : list Entry)
    : option (Z * list Entry) :=
  match entries with
  | [] => None
  | Blank :: rest => Some (current_value, rest)
  | Number value :: rest =>
      if value <? 0 then prompt_edit current_value rest
      else Some (value, rest)
  | Invalid :: rest => prompt_edit current_value rest
  end.

(** The [for] loop over the devices of [edit_dc_line_interactive].  The line
    is changed attribute by attribute, so when the entries run out the
    attributes already entered stay changed: the second component is [None]
    then. *)
Fixpoint edit_fields (fields : list Field) (dc_line : DCDevice)
    (entries : list Entry) : DCDevice * option (list Entry) :=
  match fields with
  | [] => (dc_line, Some entries)
  | f :: fs =>
      match prompt_edit (get_field f dc_line) entries with
      | None => (dc_line, None)
      | Some (value, rest) => edit_fields fs (set_field f value dc_line) rest
      end
  end.

(** [next((dc for dc in self.dc_lines if dc.dc_number == dc_num), None)]. *)
Definition find_dc_line (dc_num : Z) (dc_lines : list DCDevice)
    : option DCDevice :=
  find (fun dc => dc_number dc =? dc_num) dc_lines.

(** The line found by [find_dc_line] is an object of the list: changing it
    changes the first element with that number. *)
Fixpoint replace_dc_line (dc_num : Z) (dc_line : DCDevice)
    (dc_lines : list DCDevice) : list DCDevice :=
  match dc_lines with
  | [] => []
  | dc :: rest =>
      if dc_number dc =? dc_num then dc_line :: rest
      else dc :: replace_dc_line dc_num dc_line rest
  end.

Definition edit_dc_line_interactive (dc_lines : list DCDevice)
    (entries : list Entry) : Outcome :=
  match dc_lines with
  | [] => press_enter dc_lines entries
  | _ =>
      match entries with
      | [] => EOFError dc_lines
      | Number dc_num :: rest =>
          match find_dc_line dc_num dc_lines with
          | None => press_enter dc_lines rest
          | Some dc_line =>
              match edit_fields devices dc_line rest with
              | (edited, None) =>
                  EOFError (replace_dc_line dc_num edited dc_lines)
              | (edited, Some rest') =>
                  press_enter (replace_dc_line dc_num edited dc_lines) rest'
              end
          end
      | _ :: rest => press_enter dc_lines rest
      end
  end.

(** Menu choice 8: [self.dc_lines.clear()]. *)
Definition clear_all_data (dc_lines : list DCDevice) (entries : list Entry)
    : Outcome :=
  press_enter [] entries.

(** The line lists that adding, editing and clearing can produce, starting
    from the empty list of [__init__]. *)
Inductive reachable : list DCDevice -> Prop :=
| reach_init : reachable []
| reach_add : forall l entries,
    reachable l -> reachable (lines_of (add_dc_line_interactive l entries))
| reach_edit : forall l entries,
    reachable l -> reachable (lines_of (edit_dc_line_interactive l entries))
| reach_clear : forall l entries,
    reachable l -> reachable (lines_of (clear_all_data l entries)).

(** The lines are numbered 1, 2, ... in order. *)
Definition numbered (dc_lines : list DCDevice) : Prop :=
  map dc_number dc_lines = map Z.of_nat (seq 1 (List.length dc_lines)).

(** The numbers among the entries that a count prompt accepts. *)
Definition accepted (entries : list Entry) : list Z :=
  flat_map (fun e => match e with
                     | Number value => if value <? 0 then [] else [value]
                     | Blank => []
                     | Invalid => []
                     end) entries.

(** ** Export

    [export_all_results_to_csv] builds the list [data] of rows and hands it
    to the CSV writer; the rows are modelled, the writing is not.  A cell is
    the empty string, an integer, or text. *)

Inductive Cell : Type :=
| NoValue : Cell
| IntCell : Z -> Cell
| TextCell : string -> Cell.

Record Row : Type := {
  col_dc_line : Cell;
  col_type : Cell;
  col_readers : Cell;
  col_inputs : Cell;
  col_outputs : Cell;
  col_kt400 : Cell;
  col_kt2 : Cell;
  col_kt1 : Cell;
  col_controller_cost : Cell;
  col_expansion_modules : Cell;
  col_expansion_cost : Cell;
  col_total_cost : Cell
}.

(** A row with every cell empty. *)
Definition blank_row : Row :=
  {| col_dc_line := NoValue; col_type := NoValue; col_readers := NoValue;
     col_inputs := NoValue; col_outputs := NoValue; col_kt400 := NoValue;
     col_kt2 := NoValue; col_kt1 := NoValue; col_controller_cost := NoValue;
     col_expansion_modules := NoValue; col_expansion_cost := NoValue;
     col_total_cost := NoValue |}.

(** The five rows appended for one line result. *)
Definition line_rows (result : LineResult) : list Row :=
  let dc_num := lr_dc_number result in
  let req := requirements result in
  let controllers := controllers result in
  let expansion := expansion result in
  [ {| col_dc_line := IntCell dc_num; col_type := TextCell "Requirements";
       col_readers := IntCell (readers req);
       col_inputs := IntCell (inputs req);
       col_outputs := IntCell (outputs req);
       col_kt400 := NoValue; col_kt2 := NoValue; col_kt1 := NoValue;
       col_controller_cost := NoValue; col_expansion_modules := NoValue;
       col_expansion_cost := NoValue; col_total_cost := NoValue |};
    {| col_dc_line := IntCell dc_num; col_type := TextCell "Controllers";
       col_readers := IntCell (readers_provided controllers);
       col_inputs := IntCell (inputs_provided controllers);
       col_outputs := IntCell (outputs_provided controllers);
       col_kt400 := IntCell (kt400 controllers);
       col_kt2 := IntCell (kt2 controllers);
       col_kt1 := IntCell (kt1 controllers);
       col_controller_cost := IntCell (cost controllers);
       col_expansion_modules := NoValue;
       col_expansion_cost := NoValue; col_total_cost := NoValue |};
    match modules expansion with
    | [] =>
        {| col_dc_line := IntCell dc_num; col_type := TextCell "Expansion";
           col_readers := NoValue; col_inputs := NoValue;
           col_outputs := NoValue; col_kt400 := NoValue; col_kt2 := NoValue;
           col_kt1 := NoValue; col_controller_cost := NoValue;
           col_expansion_modules := TextCell "None";
           col_expansion_cost := IntCell 0; col_total_cost := NoValue |}
    | _ =>
        {| col_dc_line := IntCell dc_num; col_type := TextCell "Expansion";
           col_readers := NoValue; col_inputs := NoValue;
           col_outputs := NoValue; col_kt400 := NoValue; col_kt2 := NoValue;
           col_kt1 := NoValue; col_controller_cost := NoValue;
           col_expansion_modules :=
             TextCell (String.concat ", " (modules expansion));
           col_expansion_cost := IntCell (expansion_cost expansion);
           col_total_cost := NoValue |}
    end;
    {| col_dc_line := IntCell dc_num; col_type := TextCell "TOTAL";
       col_readers := NoValue; col_inputs := NoValue; col_outputs := NoValue;
       col_kt400 := NoValue; col_kt2 := NoValue; col_kt1 := NoValue;
       col_controller_cost := NoValue; col_expansion_modules := NoValue;
       col_expansion_cost := NoValue;
       col_total_cost := IntCell (total_cost result) |};
    blank_row ].

(** A row of the license block: its type and the two cells it fills. *)
Definition license_row (type_ : string) (c_readers c_inputs : Cell) : Row :=
  {| col_dc_line := TextCell "LICENSE INFO"; col_type := TextCell type_;
     col_readers := c_readers; col_inputs := c_inputs;
     col_outputs := NoValue; col_kt400 := NoValue; col_kt2 := NoValue;
     col_kt1 := NoValue; col_controller_cost := NoValue;
     col_expansion_modules := NoValue; col_expansion_cost := NoValue;
     col_total_cost := NoValue |}.

(** The name written as primary license: worked out again from the stored
    redundancy flag and controller count. *)
Definition primary_license_name (license_info : LicenseResult) : string :=
  if use_redundancy license_info then lic_name license_global
  else if lres_total_controllers license_info <=? 32
       then lic_name license_special
       else lic_name license_corporate.

(** The rows appended when a license result is stored. *)
Definition license_rows (license_result : option LicenseResult) : list Row :=
  match license_result with
  | None => []
  | Some license_info =>
      ([ license_row "System Configuration"
           (TextCell (if use_redundancy license_info then "Redundant"
                      else "Non-Redundant"))
           (TextCell ("Total Controllers: " ++
                      str (lres_total_controllers license_info)));
         license_row "Primary License"
           (TextCell (primary_license_name license_info)) NoValue ] ++
       (if use_redundancy license_info then
          map (fun license_item =>
                 license_row "Additional License"
                   (TextCell (lic_name license_item))
                   (TextCell ("Cost: $" ++ str (lic_cost license_item))))
              (additional_licenses license_info) ++
          [ license_row "Total License Cost"
              (TextCell ("$" ++ str (total_license_cost license_info)))
              NoValue ]
        else []))%list
  end.

(** The last row, with the sums worked out again from the line results and
    the stored grand total. *)
Definition grand_total_row (all_results : list LineResult) (grand_total : Z)
    : Row :=
  {| col_dc_line := TextCell "GRAND TOTAL"; col_type := TextCell "Summary";
     col_readers := NoValue; col_inputs := NoValue; col_outputs := NoValue;
     col_kt400 := IntCell (sum_Z (map (fun r => kt400 (controllers r)) all_results));
     col_kt2 := IntCell (sum_Z (map (fun r => kt2 (controllers r)) all_results));
     col_kt1 := IntCell (sum_Z (map (fun r => kt1 (controllers r)) all_results));
     col_controller_cost :=
       IntCell (sum_Z (map (fun r => cost (controllers r)) all_results));
     col_expansion_modules := NoValue;
     col_expansion_cost :=
       IntCell (sum_Z (map (fun r => expansion_cost (expansion r)) all_results));
     col_total_cost := IntCell grand_total |}.

(** The list [data] of [export_all_results_to_csv], from what is stored in
    [self.all_results], [self.grand_total] and [self.license_result]. *)
Definition export_rows (all_results : list LineResult) (grand_total : Z)
    (license_result : option LicenseResult) : list Row :=
  (flat_map line_rows all_results ++ license_rows license_result ++
   [grand_total_row all_results grand_total])%list.

(** The integer in a cell, 0 for a cell without integer. *)
Definition cell_value (c : Cell) : Z :=
  match c with
  | IntCell z => z
  | _ => 0
  end.

(** The license named under "LICENSE REFERENCE" at the end of the fleet
    summary of [calculate_all_dc_lines]. *)
Definition license_reference (t : FleetTotals) : string :=
  let total_controllers := total_kt400 t + total_kt2 t + total_kt1 t in
  if total_controllers <=? 32 then "Kantech Special License"
  else "Kantech Corporate License".

(** * Properties *)

(** ** Lists and loops *)

Lemma in_range (n z : Z) : In z (range n) <-> 0 <= z < n.
Proof.
  unfold range. rewrite in_map_iff. split.
  - intros [k [<- Hk]]. apply in_seq in Hk. lia.
  - intros Hz. exists (Z.to_nat z). split; [lia|]. apply in_seq. lia.
Qed.

Lemma fold_left_map {A B C : Type} (f : A -> C -> A) (h : B -> C) (l : list B) (a : A) :
  fold_left f (map h l) a = fold_left (fun acc x => f acc (h x)) l a.
Proof. revert a. induction l as [|x l IH]; intros a; simpl; auto. Qed.

Lemma fold_left_ext {A B : Type} (f g : A -> B -> A) (l : list B) (a : A) :
  (forall acc x, f acc x = g acc x) -> fold_left f l a = fold_left g l a.
Proof.
  intros H. revert a. induction l as [|x l IH]; intros a; simpl; auto.
  rewrite H. apply IH.
Qed.

Lemma fold_left_flat_map {A B C : Type} (f : A -> C -> A) (g : B -> list C)
    (l : list B) (a : A) :
  fold_left f (flat_map g l) a = fold_left (fun acc x => fold_left f (g x) acc) l a.
Proof.
  revert a. induction l as [|x l IH]; intros a; simpl; auto.
  rewrite fold_left_app. apply IH.
Qed.

(** A loop that keeps the first strictly cheaper acceptable candidate ends
    with a cheapest acceptable candidate of the list, or unchanged when no
    acceptable candidate is cheaper than the initial state. *)
Section RunningMinimum.

Context {X St : Type}.
Variables (ok : X -> bool) (price : X -> Z) (cur : St -> pycost)
          (build : X -> St) (step : St -> X -> St).
Hypothesis cur_build : forall x, cur (build x) = Fin (price x).
Hypothesis step_eq : forall st x,
  step st x =
  if ok x then if cost_ltb (price x) (cur st) then build x else st else st.

Lemma cost_ltb_trans (p q : Z) (c : pycost) :
  p <= q -> cost_ltb q c = true -> cost_ltb p c = true.
Proof. destruct c; simpl; auto. rewrite !Z.ltb_lt. lia. Qed.

Lemma running_minimum (l : list X) (st0 : St) :
  (fold_left step l st0 = st0 /\
   forall x, In x l -> ok x = true -> cost_ltb (price x) (cur st0) = false)
  \/
  (exists x0, In x0 l /\ ok x0 = true /\
     fold_left step l st0 = build x0 /\
     cost_ltb (price x0) (cur st0) = true /\
     forall y, In y l -> ok y = true -> price x0 <= price y).
Proof.
  revert st0. induction l as [|x l IH]; intros st0; simpl.
  - left. split; [reflexivity | intros ? []].
  - rewrite (step_eq st0 x).
    destruct (ok x) eqn:Hok;
      [destruct (cost_ltb (price x) (cur st0)) eqn:Hlt|].
    + destruct (IH (build x)) as [[Heq Hno] | [x0 (Hin & Hok0 & Heq & Hlt0 & Hmin)]].
      * right. exists x. repeat split; auto.
        intros y [<- | Hy] Hoky; [lia|].
        specialize (Hno y Hy Hoky). rewrite cur_build in Hno.
        simpl in Hno. apply Z.ltb_ge in Hno. exact Hno.
      * right. exists x0. rewrite cur_build in Hlt0. simpl in Hlt0.
        apply Z.ltb_lt in Hlt0.
        repeat split; auto.
        -- apply cost_ltb_trans with (q := price x); [lia | exact Hlt].
        -- intros y [<- | Hy] Hoky; [lia | auto].
    + destruct (IH st0) as [[Heq Hno] | [x0 (Hin & Hok0 & Heq & Hlt0 & Hmin)]].
      * left. split; auto. intros y [<- | Hy] Hoky; auto.
      * right. exists x0. repeat split; auto.
        intros y [<- | Hy] Hoky; [|auto].
        destruct (cur st0) as [|b]; simpl in *; [discriminate|].
        apply Z.ltb_lt in Hlt0. apply Z.ltb_ge in Hlt. lia.
    + destruct (IH st0) as [[Heq Hno] | [x0 (Hin & Hok0 & Heq & Hlt0 & Hmin)]].
      * left. split; auto. intros y [<- | Hy] Hoky; [congruence | auto].
      * right. exists x0. repeat split; auto.
        intros y [<- | Hy] Hoky; [congruence | auto].
Qed.

End RunningMinimum.

(** ** The controller search *)

Lemma in_combinations (r : Z) (t : Z * Z * Z) :
  In t (combinations r) <-> in_bounds r t.
Proof.
  unfold combinations, in_bounds. destruct t as [[a b] c].
  rewrite in_flat_map. split.
  - intros [a' [Ha H]]. apply in_flat_map in H. destruct H as [b' [Hb H]].
    apply in_map_iff in H. destruct H as [c' [E Hc]]. inversion E; subst.
    apply in_range in Ha, Hb, Hc. lia.
  - intros (Ha & Hb & Hc). exists a. split; [apply in_range; lia|].
    apply in_flat_map. exists b. split; [apply in_range; lia|].
    apply in_map_iff. exists c. split; [reflexivity | apply in_range; lia].
Qed.

Lemma controller_search_unfold (r : Z) :
  controller_search r =
  fold_left (fun st t => let '(a, b, c) := t in try_combination r st a b c)
            (combinations r) search_init.
Proof.
  unfold controller_search, combinations.
  rewrite fold_left_flat_map. apply fold_left_ext. intros st a.
  rewrite fold_left_flat_map. apply fold_left_ext. intros st' b.
  rewrite fold_left_map. reflexivity.
Qed.
Lemma controller_search_spec (r : Z) :
  exists t, in_bounds r t /\ triple_readers t >= r /\
    controller_search r = triple_state r t /\
    forall t', in_bounds r t' -> triple_readers t' >= r ->
               triple_cost t <= triple_cost t'.
Proof.
  rewrite controller_search_unfold.
  destruct (running_minimum
              (fun t => triple_readers t >=? r) triple_cost best_cost
              (triple_state r)
              (fun st t => let '(a, b, c) := t in try_combination r st a b c))
    with (l := combinations r) (st0 := search_init)
    as [[_ Hno] | [t (Hin & Hok & Heq & _ & Hmin)]].
  - intros [[a b] c]. reflexivity.
  - intros st [[a b] c]. unfold try_combination, triple_state, triple_readers, triple_cost.
    reflexivity.
  - exfalso.
    specialize (Hno (max_kt400 r, 0, 0)). simpl in Hno.
    assert (true = false); [|discriminate]. apply Hno.
    + apply in_combinations. unfold in_bounds, max_kt400, max_kt2, max_kt1. lia.
    + apply Z.geb_le. unfold max_kt400. Z.div_mod_to_equations. lia.
  - exists t. repeat split.
    + apply in_combinations; assumption.
    + apply Z.geb_le in Hok. lia.
    + exact Heq.
    + intros t' Hb Hr. apply Hmin; [apply in_combinations; assumption|].
      apply Z.geb_le. lia.
Qed.

(** A combination outside the search bounds is never cheaper than some
    feasible combination inside them. *)
Lemma bounds_dominate (r a b c : Z) :
  0 <= a -> 0 <= b -> 0 <= c -> a * 4 + b * 2 + c * 1 >= r ->
  exists t, in_bounds r t /\ triple_readers t >= r /\
            triple_cost t <= a * 1400 + b * 750 + c * 450.
Proof.
  intros Ha Hb Hc Hr.
  destruct (Z_le_gt_dec a (max_kt400 r)) as [Ha'|Ha'];
    [destruct (Z_le_gt_dec b (max_kt2 r)) as [Hb'|Hb'];
     [destruct (Z_le_gt_dec c (max_kt1 r)) as [Hc'|Hc']|]|].
  - exists (a, b, c). unfold in_bounds, triple_readers, triple_cost. lia.
  - exists (0, 0, max_kt1 r). unfold in_bounds, triple_readers, triple_cost, max_kt400, max_kt2, max_kt1 in *.
    repeat split; lia.
  - exists (0, max_kt2 r, 0). unfold in_bounds, triple_readers, triple_cost, max_kt400, max_kt2, max_kt1 in *.
    repeat split; try lia. Z.div_mod_to_equations. lia.
  - exists (max_kt400 r, 0, 0). unfold in_bounds, triple_readers, triple_cost, max_kt400, max_kt2, max_kt1 in *.
    repeat split; try lia. Z.div_mod_to_equations. lia.
Qed.

Lemma select_controllers_spec (req : Totals) :
  exists t, in_bounds (readers req) t /\ triple_readers t >= readers req /\
    select_controllers_for_dc req = Some (controller_info_of (readers req) t) /\
    forall t', in_bounds (readers req) t' -> triple_readers t' >= readers req ->
               triple_cost t <= triple_cost t'.
Proof.
  destruct (controller_search_spec (readers req)) as [t (Hb & Hr & Heq & Hmin)].
  exists t. repeat split; auto.
  unfold select_controllers_for_dc. rewrite Heq.
  destruct t as [[a b] c]. reflexivity.
Qed.

(** C1: for every reader demand [r >= 0] the selected allocation provides
    at least [r] readers, its cost is [1400*kt400 + 750*kt2 + 450*kt1] for
    the returned counts, and no triple of non-negative counts providing at
    least [r] readers is strictly cheaper. *)
Theorem select_controllers_optimal (req : Totals) :
  0 <= readers req ->
  exists info, select_controllers_for_dc req = Some info /\
    0 <= kt400 info /\ 0 <= kt2 info /\ 0 <= kt1 info /\
    readers_provided info = 4 * kt400 info + 2 * kt2 info + 1 * kt1 info /\
    readers_provided info >= readers req /\
    cost info = 1400 * kt400 info + 750 * kt2 info + 450 * kt1 info /\
    forall a b c, 0 <= a -> 0 <= b -> 0 <= c ->
      4 * a + 2 * b + 1 * c >= readers req ->
      cost info <= 1400 * a + 750 * b + 450 * c.
Proof.
  intros _.
  destruct (select_controllers_spec req) as [[[x y] z] (Hb & Hr & Heq & Hmin)].
  exists (controller_info_of (readers req) (x, y, z)).
  split; [exact Heq|].
  unfold in_bounds, triple_readers in Hb, Hr.
  cbn [controller_info_of kt400 kt2 kt1 readers_provided cost triple_readers triple_cost].
  repeat (split; [lia|]).
  intros a b c Ha Hb' Hc Hfeas.
  destruct (bounds_dominate (readers req) a b c) as [t' (Hb2 & Hr2 & Hc2)]; try lia.
  specialize (Hmin t' Hb2 Hr2). unfold triple_cost in Hmin at 1. lia.
Qed.

Lemma select_controllers_optimal_witness :
  0 <= readers {| readers := 5; inputs := 0; outputs := 0 |} /\
  exists info,
    select_controllers_for_dc {| readers := 5; inputs := 0; outputs := 0 |} = Some info /\
    0 <= kt400 info /\ 0 <= kt2 info /\ 0 <= kt1 info /\
    readers_provided info = 4 * kt400 info + 2 * kt2 info + 1 * kt1 info /\
    readers_provided info >= 5 /\
    cost info = 1400 * kt400 info + 750 * kt2 info + 450 * kt1 info /\
    forall a b c, 0 <= a -> 0 <= b -> 0 <= c ->
      4 * a + 2 * b + 1 * c >= 5 ->
      cost info <= 1400 * a + 750 * b + 450 * c.
Proof.
  split; [simpl; lia|].
  apply (select_controllers_optimal {| readers := 5; inputs := 0; outputs := 0 |}).
  simpl; lia.
Defined.
(** C7: for every reader demand [r >= 0] the search bounds contain a
    feasible combination, the selector returns an allocation (never the
    "no combination" [None]), and for [r = 0] the allocation has zero units
    and cost 0. *)
Theorem select_controllers_feasible (req : Totals) :
  0 <= readers req ->
  (exists t, in_bounds (readers req) t /\ triple_readers t >= readers req) /\
  (exists info, select_controllers_for_dc req = Some info) /\
  select_controllers_for_dc req <> None /\
  (readers req = 0 ->
   exists info, select_controllers_for_dc req = Some info /\
     kt400 info = 0 /\ kt2 info = 0 /\ kt1 info = 0 /\
     readers_provided info = 0 /\ cost info = 0).
Proof.
  intros _.
  destruct (select_controllers_spec req) as [t (Hb & Hr & Heq & Hmin)].
  split; [exists t; auto|].
  split; [eexists; exact Heq|].
  split; [rewrite Heq; discriminate|].
  intros H0. destruct t as [[a b] c].
  assert (Hzero : triple_cost (a, b, c) <= triple_cost (0, 0, 0)).
  { apply Hmin; unfold in_bounds, triple_readers, max_kt400, max_kt2, max_kt1; lia. }
  unfold in_bounds, triple_cost in Hb, Hzero.
  assert (a = 0 /\ b = 0 /\ c = 0) as (-> & -> & ->) by lia.
  eexists. split; [exact Heq|]. rewrite H0. repeat split.
Qed.

Lemma select_controllers_feasible_witness :
  0 <= readers {| readers := 0; inputs := 3; outputs := 1 |} /\
  select_controllers_for_dc {| readers := 0; inputs := 3; outputs := 1 |} <> None.
Proof.
  split; [simpl; lia|].
  apply (select_controllers_feasible {| readers := 0; inputs := 3; outputs := 1 |}).
  simpl; lia.
Defined.

(** C10: two tallies with the same [smart_card + fingerprint] get the same
    controller allocation, whatever their other nine counts are. *)
Theorem select_controllers_readers_only (d1 d2 : DCDevice) :
  smart_card d1 + fingerprint d1 = smart_card d2 + fingerprint d2 ->
  select_controllers_for_dc (calculate_totals d1) =
  select_controllers_for_dc (calculate_totals d2).
Proof.
  intros H. unfold select_controllers_for_dc, calculate_totals.
  cbn [readers]. rewrite H. reflexivity.
Qed.

Lemma select_controllers_readers_only_witness :
  select_controllers_for_dc
    (calculate_totals
       {| dc_number := 1; smart_card := 2; fingerprint := 1; door_sensor := 0;
          magnetic_lock := 0; electric_lock := 0; rex_button := 0;
          push_button := 0; break_glass := 0; buzzer := 0;
          double_door_lock := 0; ddl_sensors := 0 |}) =
  select_controllers_for_dc
    (calculate_totals
       {| dc_number := 2; smart_card := 0; fingerprint := 3; door_sensor := 40;
          magnetic_lock := 7; electric_lock := 5; rex_button := 9;
          push_button := 2; break_glass := 1; buzzer := 6;
          double_door_lock := 4; ddl_sensors := 8 |}).
Proof.
  apply select_controllers_readers_only. reflexivity.
Defined.

(** C4: the demand of a tally is [readers = smart_card + fingerprint],
    [inputs] the sum of the eight input-side counts and [outputs] the sum of
    the four output-side counts; one more double door lock adds exactly one
    input and exactly one output, and no reader. *)
Theorem calculate_totals_formulas (d : DCDevice) :
  readers (calculate_totals d) = smart_card d + fingerprint d /\
  inputs (calculate_totals d) =
    door_sensor d + rex_button d + push_button d + break_glass d + buzzer d +
    magnetic_lock d + ddl_sensors d + double_door_lock d /\
  outputs (calculate_totals d) =
    magnetic_lock d + electric_lock d + ddl_sensors d + double_door_lock d /\
  readers (calculate_totals (increase DoubleDoorLock d)) =
    readers (calculate_totals d) /\
  inputs (calculate_totals (increase DoubleDoorLock d)) =
    inputs (calculate_totals d) + 1 /\
  outputs (calculate_totals (increase DoubleDoorLock d)) =
    outputs (calculate_totals d) + 1.
Proof.
  unfold calculate_totals, increase; cbn [readers inputs outputs
    smart_card fingerprint door_sensor magnetic_lock electric_lock rex_button
    push_button break_glass buzzer double_door_lock ddl_sensors bump].
  repeat split; lia.
Qed.
(** ** Licensing *)

(** C3: with at least one controller, redundancy gives tier "global" with
    exactly the gateway ($500) and redundancy ($750) add-ons and license
    cost $1250 at any controller count; without redundancy the tier is
    "special" up to 32 controllers and "corporate" above, with no add-on and
    cost 0 (so 32 is "special" and 33 is "corporate"); with zero controllers
    no license result is produced. *)
Theorem license_decision_tiers (ct : ControllerTotals) (redundancy : bool) :
  (total_controllers ct >= 1 ->
   exists res, license_decision ct redundancy = Some res /\
     lres_total_controllers res = total_controllers ct /\
     use_redundancy res = redundancy /\
     (redundancy = true ->
        primary_license res = "global" /\
        additional_licenses res =
          [ {| lic_name := "Gateway License"; lic_cost := 500 |};
            {| lic_name := "Redundancy License"; lic_cost := 750 |} ] /\
        total_license_cost res = 1250) /\
     (redundancy = false -> total_controllers ct <= 32 ->
        primary_license res = "special" /\
        additional_licenses res = [] /\ total_license_cost res = 0) /\
     (redundancy = false -> total_controllers ct > 32 ->
        primary_license res = "corporate" /\
        additional_licenses res = [] /\ total_license_cost res = 0) /\
     (redundancy = false -> total_controllers ct = 32 ->
        primary_license res = "special") /\
     (redundancy = false -> total_controllers ct = 33 ->
        primary_license res = "corporate")) /\
  (total_controllers ct = 0 -> license_decision ct redundancy = None).
Proof.
  unfold license_decision. split.
  - intros Hpos.
    destruct (Z.eqb_spec (total_controllers ct) 0) as [E|_]; [lia|].
    destruct redundancy.
    + eexists. split; [reflexivity|]. cbn.
      repeat split; auto; intros; discriminate.
    + destruct (Z.leb_spec (total_controllers ct) 32) as [Hle|Hgt];
        (eexists; split; [reflexivity|]; cbn;
         repeat split; auto; intros; try discriminate; try lia).
  - intros ->. reflexivity.
Qed.

Lemma license_decision_tiers_witness :
  let ct := {| total_controllers := 33; ct_kt400 := 30; ct_kt2 := 2; ct_kt1 := 1;
               breakdown := Some "kt-400: 30, kt-2: 2, kt-1: 1" |} in
  total_controllers ct >= 1 /\
  exists res, license_decision ct false = Some res /\
              primary_license res = "corporate" /\
              additional_licenses res = [] /\ total_license_cost res = 0.
Proof.
  intros ct. split; [simpl; lia|].
  destruct (license_decision_tiers ct false) as [H _].
  destruct H as [res (Hres & _ & _ & _ & _ & Hcorp & _)]; [simpl; lia|].
  exists res. split; [exact Hres|]. apply Hcorp; [reflexivity | simpl; lia].
Defined.
(** ** The expansion search *)

Lemma catalog_costs (m : ExpansionModule) :
  In m expansion_modules -> 447 <= em_cost m <= 470.
Proof.
  revert m. apply Forall_forall. unfold expansion_modules.
  repeat constructor; simpl; lia.
Qed.

Lemma catalog_capacities (m : ExpansionModule) :
  In m expansion_modules ->
  0 <= em_inputs m <= 16 /\ 0 <= em_outputs m <= 16.
Proof.
  revert m. apply Forall_forall. unfold expansion_modules.
  repeat constructor; simpl; lia.
Qed.

Lemma single_covers_iff (i o : Z) (m : ExpansionModule) :
  (em_inputs m >=? i) && (em_outputs m >=? o) = true <-> single_covers i o m.
Proof.
  unfold single_covers. rewrite andb_true_iff, !Z.geb_le. lia.
Qed.

Lemma pair_covers_iff (i o : Z) (p : ExpansionModule * ExpansionModule) :
  (em_inputs (fst p) + em_inputs (snd p) >=? i) &&
  (em_outputs (fst p) + em_outputs (snd p) >=? o) = true <->
  pair_covers i o (fst p) (snd p).
Proof.
  unfold pair_covers. rewrite andb_true_iff, !Z.geb_le. lia.
Qed.

(** The single-module loop, from any [best_solution]. *)
Lemma single_loop_spec (i o : Z) (best : Candidate) :
  let best' := fold_left (try_single i o) expansion_modules best in
  (best' = best /\
   forall m, In m expansion_modules -> single_covers i o m ->
             cost_ltb (em_cost m) (cand_cost best) = false)
  \/
  (exists m0, In m0 expansion_modules /\ single_covers i o m0 /\
     best' = single_candidate m0 /\
     cost_ltb (em_cost m0) (cand_cost best) = true /\
     forall m, In m expansion_modules -> single_covers i o m ->
               em_cost m0 <= em_cost m).
Proof.
  intros best'. subst best'.
  destruct (running_minimum
              (fun m => (em_inputs m >=? i) && (em_outputs m >=? o))
              em_cost cand_cost single_candidate (try_single i o))
    with (l := expansion_modules) (st0 := best)
    as [[Heq Hno] | [m0 (Hin & Hok & Heq & Hlt & Hmin)]].
  - reflexivity.
  - reflexivity.
  - left. split; [exact Heq|]. intros m Hm Hc. apply Hno; auto.
    apply single_covers_iff; exact Hc.
  - right. exists m0.
    split; [exact Hin|]. split; [apply single_covers_iff; exact Hok|].
    split; [exact Heq|]. split; [exact Hlt|].
    intros m Hm Hc. apply Hmin; auto. apply single_covers_iff; exact Hc.
Qed.

Lemma fold_left_list_prod {A B C : Type} (f : A -> B -> C -> A)
    (l1 : list B) (l2 : list C) (a : A) :
  fold_left (fun acc x => fold_left (fun acc y => f acc x y) l2 acc) l1 a =
  fold_left (fun acc p => f acc (fst p) (snd p)) (list_prod l1 l2) a.
Proof.
  revert a. induction l1 as [|x l1 IH]; intros a; simpl; [reflexivity|].
  rewrite fold_left_app, fold_left_map. simpl. apply IH.
Qed.

(** The two-module loops, from any [best_solution]. *)
Lemma pair_loop_spec (i o : Z) (best : Candidate) :
  let best' :=
    fold_left (fun b module1 =>
                 fold_left (fun b module2 => try_pair i o b module1 module2)
                           expansion_modules b)
              expansion_modules best in
  (best' = best /\
   forall m1 m2, In m1 expansion_modules -> In m2 expansion_modules ->
     pair_covers i o m1 m2 ->
     cost_ltb (em_cost m1 + em_cost m2) (cand_cost best) = false)
  \/
  (exists m1 m2, In m1 expansion_modules /\ In m2 expansion_modules /\
     pair_covers i o m1 m2 /\
     best' = pair_candidate (m1, m2) /\
     cost_ltb (em_cost m1 + em_cost m2) (cand_cost best) = true /\
     forall n1 n2, In n1 expansion_modules -> In n2 expansion_modules ->
       pair_covers i o n1 n2 ->
       em_cost m1 + em_cost m2 <= em_cost n1 + em_cost n2).
Proof.
  intros best'.
  subst best'. rewrite (fold_left_list_prod (try_pair i o)).
  destruct (running_minimum
              (fun p => (em_inputs (fst p) + em_inputs (snd p) >=? i) &&
                        (em_outputs (fst p) + em_outputs (snd p) >=? o))
              (fun p => em_cost (fst p) + em_cost (snd p))
              cand_cost pair_candidate
              (fun b p => try_pair i o b (fst p) (snd p)))
    with (l := list_prod expansion_modules expansion_modules) (st0 := best)
    as [[Heq Hno] | [[m1 m2] (Hin & Hok & Heq & Hlt & Hmin)]].
  - reflexivity.
  - reflexivity.
  - left. split; [exact Heq|]. intros m1 m2 H1 H2 Hc.
    apply (Hno (m1, m2)); [apply in_prod; assumption|].
    apply pair_covers_iff; exact Hc.
  - right. apply in_prod_iff in Hin. destruct Hin as [H1 H2].
    exists m1, m2.
    split; [exact H1|]. split; [exact H2|].
    split; [apply (pair_covers_iff i o (m1, m2)); exact Hok|].
    split; [exact Heq|]. split; [exact Hlt|].
    intros n1 n2 Hn1 Hn2 Hc.
    apply (Hmin (n1, n2)); [apply in_prod; assumption|].
    apply pair_covers_iff; exact Hc.
Qed.
(** C5: with both shortages zero the result is the empty module list at
    cost 0; otherwise, when some single catalog module covers both
    shortages, the result is exactly one covering module of least cost among
    the covering single modules (never a pair); otherwise, when some pair of
    catalog modules covers both shortages, the result is a covering pair of
    least cost among the covering pairs. *)
Theorem expansion_tiers
    (dc_inputs dc_outputs controller_inputs controller_outputs : Z) :
  let input_shortage := Z.max 0 (dc_inputs - controller_inputs) in
  let output_shortage := Z.max 0 (dc_outputs - controller_outputs) in
  let res := calculate_expansion_for_dc dc_inputs dc_outputs
               controller_inputs controller_outputs in
  (input_shortage = 0 /\ output_shortage = 0 ->
   res = Ok {| modules := []; expansion_cost := 0 |}) /\
  (~ (input_shortage = 0 /\ output_shortage = 0) ->
   (exists m, In m expansion_modules /\
              single_covers input_shortage output_shortage m) ->
   exists m0, In m0 expansion_modules /\
     single_covers input_shortage output_shortage m0 /\
     res = Ok {| modules := [em_name m0]; expansion_cost := em_cost m0 |} /\
     forall m, In m expansion_modules ->
       single_covers input_shortage output_shortage m ->
       em_cost m0 <= em_cost m) /\
  (~ (input_shortage = 0 /\ output_shortage = 0) ->
   ~ (exists m, In m expansion_modules /\
                single_covers input_shortage output_shortage m) ->
   (exists m1 m2, In m1 expansion_modules /\ In m2 expansion_modules /\
                  pair_covers input_shortage output_shortage m1 m2) ->
   exists m1 m2, In m1 expansion_modules /\ In m2 expansion_modules /\
     pair_covers input_shortage output_shortage m1 m2 /\
     res = Ok {| modules := [em_name m1; em_name m2];
                 expansion_cost := em_cost m1 + em_cost m2 |} /\
     forall n1 n2, In n1 expansion_modules -> In n2 expansion_modules ->
       pair_covers input_shortage output_shortage n1 n2 ->
       em_cost m1 + em_cost m2 <= em_cost n1 + em_cost n2).
Proof.
  intros i o res. subst res. unfold calculate_expansion_for_dc.
  fold i o. split; [|split].
  - intros [-> ->]. reflexivity.
  - intros Hnz [m [Hm Hcov]].
    assert (Hz : (i =? 0) && (o =? 0) = false).
    { apply andb_false_iff. destruct (Z.eqb_spec i 0), (Z.eqb_spec o 0); tauto. }
    rewrite Hz. unfold expansion_search.
    destruct (single_loop_spec i o {| cand_modules := []; cand_cost := Inf |})
      as [[_ Hno] | [m0 (Hin & Hc0 & Heq & _ & Hmin)]].
    { specialize (Hno m Hm Hcov). discriminate. }
    rewrite Heq.
    destruct (pair_loop_spec i o (single_candidate m0))
      as [[Heq2 _] | [m1 [m2 (H1 & H2 & _ & _ & Hlt & _)]]].
    + rewrite Heq2. exists m0. repeat (split; [assumption|]).
      split; [reflexivity | exact Hmin].
    + exfalso. simpl in Hlt. apply Z.ltb_lt in Hlt.
      pose proof (catalog_costs m0 Hin). pose proof (catalog_costs m1 H1).
      pose proof (catalog_costs m2 H2). lia.
  - intros Hnz Hnone [m1 [m2 (H1 & H2 & Hcov)]].
    assert (Hz : (i =? 0) && (o =? 0) = false).
    { apply andb_false_iff. destruct (Z.eqb_spec i 0), (Z.eqb_spec o 0); tauto. }
    rewrite Hz. unfold expansion_search.
    destruct (single_loop_spec i o {| cand_modules := []; cand_cost := Inf |})
      as [[Heq _] | [m0 (Hin & Hc0 & _)]].
    2: { exfalso. apply Hnone. exists m0. auto. }
    rewrite Heq.
    destruct (pair_loop_spec i o {| cand_modules := []; cand_cost := Inf |})
      as [[_ Hno] | [n1 [n2 (Hn1 & Hn2 & Hc & Heq2 & _ & Hmin)]]].
    { specialize (Hno m1 m2 H1 H2 Hcov). discriminate. }
    rewrite Heq2. exists n1, n2. repeat (split; [assumption|]).
    split; [reflexivity | exact Hmin].
Qed.

Lemma expansion_tiers_witness :
  calculate_expansion_for_dc 4 2 4 2 = Ok {| modules := []; expansion_cost := 0 |} /\
  (exists m0, In m0 expansion_modules /\
     single_covers 6 3 m0 /\
     calculate_expansion_for_dc 10 5 4 2 =
       Ok {| modules := [em_name m0]; expansion_cost := em_cost m0 |} /\
     forall m, In m expansion_modules -> single_covers 6 3 m ->
               em_cost m0 <= em_cost m) /\
  (exists m1 m2, In m1 expansion_modules /\ In m2 expansion_modules /\
     pair_covers 20 0 m1 m2 /\
     calculate_expansion_for_dc 24 1 4 2 =
       Ok {| modules := [em_name m1; em_name m2];
             expansion_cost := em_cost m1 + em_cost m2 |} /\
     forall n1 n2, In n1 expansion_modules -> In n2 expansion_modules ->
       pair_covers 20 0 n1 n2 ->
       em_cost m1 + em_cost m2 <= em_cost n1 + em_cost n2).
Proof.
  split; [|split].
  - apply (expansion_tiers 4 2 4 2). simpl. lia.
  - apply (expansion_tiers 10 5 4 2).
    + simpl. lia.
    + exists {| em_name := "inout16 (12/4)"; em_inputs := 12; em_outputs := 4;
                em_cost := 447 |}.
      split; [simpl; tauto | unfold single_covers; simpl; lia].
  - apply (expansion_tiers 24 1 4 2).
    + simpl. lia.
    + intros [m [Hm [Hi _]]]. simpl in Hi.
      pose proof (catalog_capacities m Hm). lia.
    + exists {| em_name := "in16"; em_inputs := 16; em_outputs := 0;
                em_cost := 470 |},
             {| em_name := "in16"; em_inputs := 16; em_outputs := 0;
                em_cost := 470 |}.
      split; [simpl; tauto|]. split; [simpl; tauto|].
      unfold pair_covers; simpl; lia.
Defined.
(** ** Float arithmetic: exact below [2 ^ 53] *)

Lemma ratio_log2_pow2 (n k : Z) :
  0 < n -> 0 <= k -> ratio_log2 n (2 ^ k) = Z.log2 n - k.
Proof.
  intros Hn Hk. unfold ratio_log2.
  rewrite Z.log2_pow2 by lia.
  destruct (Z.log2_spec n Hn) as [Hlo _].
  pose proof (Z.log2_nonneg n) as HL.
  set (L := Z.log2 n) in *.
  assert (H : (scaled_num n (L - k) <? scaled_den (2 ^ k) (L - k)) = false);
    [|rewrite H; reflexivity].
  apply Z.ltb_ge. unfold scaled_num, scaled_den.
  destruct (Z.leb_spec 0 (L - k)).
  - rewrite <- Z.pow_add_r by lia. replace (k + (L - k)) with L by lia. exact Hlo.
  - replace (2 ^ k) with (2 ^ L * 2 ^ (- (L - k))).
    + apply Z.mul_le_mono_nonneg_r; [apply Z.pow_nonneg; lia | exact Hlo].
    + rewrite <- Z.pow_add_r by lia. f_equal. lia.
Qed.

(** Below [2 ^ 53] the quotient by a small power of two is representable:
    true division is exact and its ceiling is the integer ceiling. *)
Lemma int_true_divide_exact (n k : Z) :
  0 < n < 2 ^ 53 -> 1 <= k <= 16 ->
  exists f, int_true_divide n (2 ^ k) = Ok f /\
            int_np_ceil f = ceil_div n (2 ^ k).
Proof.
  intros [Hn Hub] Hk.
  pose proof (Z.log2_nonneg n) as HL0.
  assert (HL : Z.log2 n < 53).
  { apply Z.log2_lt_pow2; [lia | exact Hub]. }
  assert (Hd : 0 < 2 ^ k) by (apply Z.pow_pos_nonneg; lia).
  unfold int_true_divide.
  destruct (Z.eqb_spec (2 ^ k) 0) as [E|_]; [lia|].
  destruct (Z.eqb_spec n 0) as [E|_]; [lia|].
  rewrite (Z.abs_eq n), (Z.abs_eq (2 ^ k)) by lia.
  rewrite (Z.sgn_pos n), (Z.sgn_pos (2 ^ k)) by lia.
  unfold round_binary64. rewrite ratio_log2_pow2 by lia.
  set (L := Z.log2 n) in *.
  rewrite (Z.max_l (L - k - 52) (-1074)) by lia.
  set (e := L - k - 52).
  assert (He : e < 0) by (unfold e; lia).
  destruct (Z.leb_spec 0 e) as [Hc|_]; [lia|]. cbn [andb bind].
  unfold scaled_num, scaled_den.
  destruct (Z.leb_spec 0 e) as [Hc|_]; [lia|].
  set (c := 2 ^ (52 - L)).
  assert (Hc : 0 < c) by (apply Z.pow_pos_nonneg; lia).
  assert (Hpow : 2 ^ (- e) = 2 ^ k * c).
  { unfold c, e. rewrite <- Z.pow_add_r by lia. f_equal. lia. }
  assert (Hround : round_half_even (n * 2 ^ (- e)) (2 ^ k) = n * c).
  { unfold round_half_even. rewrite Hpow.
    replace (n * (2 ^ k * c)) with (n * c * 2 ^ k) by ring.
    rewrite Z.div_mul, Z.mod_mul by lia.
    destruct (Z.ltb_spec (2 * 0) (2 ^ k)); [reflexivity | lia]. }
  rewrite Hround. eexists. split; [reflexivity|].
  unfold int_np_ceil. cbn [mant expo].
  destruct (Z.leb_spec 0 e) as [Hc'|_]; [lia|].
  rewrite Hpow. replace (- (1 * 1 * (n * c))) with ((- n) * c) by ring.
  rewrite Z.div_mul_cancel_r by lia.
  unfold ceil_div. Z.div_mod_to_equations. nia.
Qed.
(** The whole search: nothing covers and the cost is still infinite, or the
    cost is the least one among the covering combinations. *)
Lemma expansion_search_spec (i o : Z) :
  (cand_cost (expansion_search i o) = Inf /\ uncovered i o) \/
  (exists c, cand_cost (expansion_search i o) = Fin c /\ least_cover_cost i o c).
Proof.
  unfold expansion_search.
  destruct (single_loop_spec i o {| cand_modules := []; cand_cost := Inf |})
    as [[Heq Hno] | [m0 (Hin & Hc0 & Heq & _ & Hmin)]]; rewrite Heq.
  - assert (Hsingle : forall m, In m expansion_modules -> ~ single_covers i o m).
    { intros m Hm Hc. specialize (Hno m Hm Hc). discriminate. }
    destruct (pair_loop_spec i o {| cand_modules := []; cand_cost := Inf |})
      as [[Heq2 Hno2] | [n1 [n2 (Hn1 & Hn2 & Hc & Heq2 & _ & Hmin2)]]];
      rewrite Heq2.
    + left. split; [reflexivity|]. split; [exact Hsingle|].
      intros m1 m2 H1 H2 Hc. specialize (Hno2 m1 m2 H1 H2 Hc). discriminate.
    + right. exists (em_cost n1 + em_cost n2). split; [reflexivity|].
      split; [right; exists n1, n2; auto|].
      split; [|exact Hmin2].
      intros m Hm Hc'. exfalso. exact (Hsingle m Hm Hc').
  - destruct (pair_loop_spec i o (single_candidate m0))
      as [[Heq2 _] | [m1 [m2 (H1 & H2 & _ & _ & Hlt & _)]]].
    + rewrite Heq2. right. exists (em_cost m0). split; [reflexivity|].
      split; [left; exists m0; auto|].
      split; [exact Hmin|].
      intros m1 m2 H1 H2 _.
      pose proof (catalog_costs m0 Hin). pose proof (catalog_costs m1 H1).
      pose proof (catalog_costs m2 H2). lia.
    + exfalso. simpl in Hlt. apply Z.ltb_lt in Hlt.
      pose proof (catalog_costs m0 Hin). pose proof (catalog_costs m1 H1).
      pose proof (catalog_costs m2 H2). lia.
Qed.

Lemma least_cover_cost_bounds (i o c : Z) :
  least_cover_cost i o c -> 447 <= c <= 940.
Proof.
  intros [[[m (Hm & _ & ->)] | [m1 [m2 (H1 & H2 & _ & ->)]]] _].
  - pose proof (catalog_costs m Hm). lia.
  - pose proof (catalog_costs m1 H1). pose proof (catalog_costs m2 H2). lia.
Qed.

(** Below [2 ^ 53] the fallback charges the exact ceilings. *)
Lemma expansion_fallback_exact (i o : Z) :
  0 <= i < 2 ^ 53 -> 0 <= o < 2 ^ 53 ->
  exists e, expansion_fallback i o = Ok e /\
            expansion_cost e = fallback_cost i o.
Proof.
  intros Hi Ho. unfold expansion_fallback, fallback_cost.
  destruct (Z.gtb_spec i 0) as [Hi0|Hi0]; destruct (Z.gtb_spec o 0) as [Ho0|Ho0].
  - destruct (int_true_divide_exact i 4) as [f (Hf & Hc)]; [lia | lia |].
    destruct (int_true_divide_exact o 3) as [g (Hg & Hd)]; [lia | lia |].
    change (2 ^ 4) with 16 in *. change (2 ^ 3) with 8 in *.
    rewrite Hf. cbn [bind fst snd]. rewrite Hg. cbn [bind fst snd].
    eexists. split; [reflexivity|]. cbn [expansion_cost]. rewrite Hc, Hd. lia.
  - destruct (int_true_divide_exact i 4) as [f (Hf & Hc)]; [lia | lia |].
    change (2 ^ 4) with 16 in *.
    rewrite Hf. cbn [bind fst snd].
    eexists. split; [reflexivity|]. cbn [expansion_cost]. rewrite Hc. lia.
  - destruct (int_true_divide_exact o 3) as [g (Hg & Hd)]; [lia | lia |].
    change (2 ^ 3) with 8 in *.
    cbn [bind fst snd]. rewrite Hg. cbn [bind fst snd].
    eexists. split; [reflexivity|]. cbn [expansion_cost]. rewrite Hd. lia.
  - cbn [bind fst snd]. eexists. split; [reflexivity|]. reflexivity.
Qed.

(** The three outcomes of the expansion selector, for shortages below
    [2 ^ 53]. *)
Lemma calculate_expansion_cases
    (dc_inputs dc_outputs controller_inputs controller_outputs : Z) :
  let i := Z.max 0 (dc_inputs - controller_inputs) in
  let o := Z.max 0 (dc_outputs - controller_outputs) in
  i < 2 ^ 53 -> o < 2 ^ 53 ->
  exists e,
    calculate_expansion_for_dc dc_inputs dc_outputs
      controller_inputs controller_outputs = Ok e /\
    ((i = 0 /\ o = 0 /\ expansion_cost e = 0) \/
     (~ (i = 0 /\ o = 0) /\ least_cover_cost i o (expansion_cost e)) \/
     (~ (i = 0 /\ o = 0) /\ uncovered i o /\
      expansion_cost e = fallback_cost i o)).
Proof.
  intros i o Hi Ho. unfold calculate_expansion_for_dc. fold i o.
  destruct (Z.eqb_spec i 0) as [Ei|Ei]; [destruct (Z.eqb_spec o 0) as [Eo|Eo]|];
    cbn [andb].
  - eexists. split; [reflexivity|]. left. auto.
  - destruct (expansion_search_spec i o) as [[Hinf Hun] | [c [Hfin Hl]]].
    + rewrite Hinf.
      destruct (expansion_fallback_exact i o) as [e [He Hc]]; [lia | lia |].
      exists e. split; [exact He|]. right. right. repeat split; auto; try tauto;
        apply Hun.
    + rewrite Hfin. eexists. split; [reflexivity|]. right. left.
      split; [tauto | exact Hl].
  - destruct (expansion_search_spec i o) as [[Hinf Hun] | [c [Hfin Hl]]].
    + rewrite Hinf.
      destruct (expansion_fallback_exact i o) as [e [He Hc]]; [lia | lia |].
      exists e. split; [exact He|]. right. right. repeat split; auto; try tauto;
        apply Hun.
    + rewrite Hfin. eexists. split; [reflexivity|]. right. left.
      split; [tauto | exact Hl].
Qed.
(** ** Monotonicity of the expansion cost *)

Lemma single_covers_mono (i o i' o' : Z) (m : ExpansionModule) :
  i <= i' -> o <= o' -> single_covers i' o' m -> single_covers i o m.
Proof. unfold single_covers. lia. Qed.

Lemma pair_covers_mono (i o i' o' : Z) (m1 m2 : ExpansionModule) :
  i <= i' -> o <= o' -> pair_covers i' o' m1 m2 -> pair_covers i o m1 m2.
Proof. unfold pair_covers. lia. Qed.

Lemma ceil_div_mono (n n' d : Z) :
  0 < d -> n <= n' -> ceil_div n d <= ceil_div n' d.
Proof. intros Hd Hn. unfold ceil_div. apply Z.div_le_mono; lia. Qed.

Lemma ceil_div_pos (n d : Z) : 0 < d -> 0 < n -> 1 <= ceil_div n d.
Proof.
  intros Hd Hn. unfold ceil_div.
  apply Z.div_le_lower_bound; lia.
Qed.

Lemma fallback_cost_nonneg (i o : Z) : 0 <= fallback_cost i o.
Proof.
  unfold fallback_cost.
  destruct (Z.gtb_spec i 0); destruct (Z.gtb_spec o 0);
    try pose proof (ceil_div_pos i 16); try pose proof (ceil_div_pos o 8); lia.
Qed.

Lemma fallback_cost_mono (i o i' o' : Z) :
  i <= i' -> o <= o' -> fallback_cost i o <= fallback_cost i' o'.
Proof.
  intros Hi Ho. unfold fallback_cost.
  pose proof (ceil_div_mono i i' 16). pose proof (ceil_div_mono o o' 8).
  destruct (Z.gtb_spec i 0); destruct (Z.gtb_spec i' 0);
    destruct (Z.gtb_spec o 0); destruct (Z.gtb_spec o' 0);
    try pose proof (ceil_div_pos i' 16); try pose proof (ceil_div_pos o' 8);
    lia.
Qed.

(** Shortages that no one or two modules cover need at least two fallback
    units. *)
Lemma fallback_cost_uncovered (i o : Z) :
  0 <= i -> 0 <= o -> uncovered i o -> 940 <= fallback_cost i o.
Proof.
  intros Hi Ho [_ Hpair].
  assert (Hwide : 16 < i \/ 8 < o).
  { destruct (Z_le_gt_dec i 16) as [Hi'|Hi']; [|lia].
    destruct (Z_le_gt_dec o 8) as [Ho'|Ho']; [|lia].
    exfalso.
    apply (Hpair {| em_name := "in16"; em_inputs := 16; em_outputs := 0;
                    em_cost := 470 |}
                 {| em_name := "r8"; em_inputs := 0; em_outputs := 8;
                    em_cost := 470 |}).
    - simpl; tauto.
    - simpl; tauto.
    - unfold pair_covers; simpl; lia. }
  unfold fallback_cost.
  assert (H16 : 16 < i -> 2 <= ceil_div i 16).
  { intros H. unfold ceil_div. apply Z.div_le_lower_bound; lia. }
  assert (H8 : 8 < o -> 2 <= ceil_div o 8).
  { intros H. unfold ceil_div. apply Z.div_le_lower_bound; lia. }
  destruct (Z.gtb_spec i 0); destruct (Z.gtb_spec o 0);
    try pose proof (ceil_div_pos i 16); try pose proof (ceil_div_pos o 8);
    lia.
Qed.

Lemma least_cover_cost_mono (i o i' o' c c' : Z) :
  i <= i' -> o <= o' ->
  least_cover_cost i o c -> least_cover_cost i' o' c' -> c <= c'.
Proof.
  intros Hi Ho (_ & Hs & Hp) ([[m (Hm & Hc & ->)] | [m1 [m2 (H1 & H2 & Hc & ->)]]] & _).
  - apply Hs; [exact Hm|]. eapply single_covers_mono; eauto.
  - apply Hp; [exact H1 | exact H2 |]. eapply pair_covers_mono; eauto.
Qed.

Lemma least_cover_not_uncovered (i o i' o' c' : Z) :
  i <= i' -> o <= o' ->
  least_cover_cost i' o' c' -> uncovered i o -> False.
Proof.
  intros Hi Ho ([[m (Hm & Hc & _)] | [m1 [m2 (H1 & H2 & Hc & _)]]] & _) [Hs Hp].
  - apply (Hs m Hm). eapply single_covers_mono; eauto.
  - apply (Hp m1 m2 H1 H2). eapply pair_covers_mono; eauto.
Qed.

(** With the controllers fixed, more demanded inputs or outputs never make
    the expansion cheaper (shortages below [2 ^ 53]). *)
Lemma calculate_expansion_monotone
    (dc_inputs dc_outputs dc_inputs' dc_outputs' ci co : Z) :
  dc_inputs <= dc_inputs' -> dc_outputs <= dc_outputs' ->
  Z.max 0 (dc_inputs' - ci) < 2 ^ 53 -> Z.max 0 (dc_outputs' - co) < 2 ^ 53 ->
  exists e e',
    calculate_expansion_for_dc dc_inputs dc_outputs ci co = Ok e /\
    calculate_expansion_for_dc dc_inputs' dc_outputs' ci co = Ok e' /\
    expansion_cost e <= expansion_cost e'.
Proof.
  intros Hi Ho Hbi Hbo.
  destruct (calculate_expansion_cases dc_inputs dc_outputs ci co)
    as [e [He Hcase]]; [lia | lia |].
  destruct (calculate_expansion_cases dc_inputs' dc_outputs' ci co)
    as [e' [He' Hcase']]; [lia | lia |].
  exists e, e'. split; [exact He|]. split; [exact He'|].
  set (i := Z.max 0 (dc_inputs - ci)) in *.
  set (o := Z.max 0 (dc_outputs - co)) in *.
  set (i' := Z.max 0 (dc_inputs' - ci)) in *.
  set (o' := Z.max 0 (dc_outputs' - co)) in *.
  assert (Hii : 0 <= i <= i') by (unfold i, i'; lia).
  assert (Hoo : 0 <= o <= o') by (unfold o, o'; lia).
  destruct Hcase as [(_ & _ & Hc) | [(Hnz & Hl) | (Hnz & Hun & Hc)]];
    destruct Hcase' as [(Hi0 & Ho0 & Hc') | [(Hnz' & Hl') | (Hnz' & Hun' & Hc')]].
  - lia.
  - pose proof (least_cover_cost_bounds _ _ _ Hl'). lia.
  - pose proof (fallback_cost_nonneg i' o'). lia.
  - exfalso. apply Hnz. lia.
  - apply (least_cover_cost_mono i o i' o'); auto; lia.
  - pose proof (least_cover_cost_bounds _ _ _ Hl).
    pose proof (fallback_cost_uncovered i' o' ltac:(lia) ltac:(lia) Hun'). lia.
  - exfalso. apply Hnz. lia.
  - exfalso. apply (least_cover_not_uncovered i o i' o' (expansion_cost e')); auto; lia.
  - rewrite Hc, Hc'. apply fallback_cost_mono; lia.
Qed.

(** ** One line *)

Lemma select_controllers_by_readers (r1 r2 : Totals) :
  readers r1 = readers r2 ->
  select_controllers_for_dc r1 = select_controllers_for_dc r2.
Proof. intros H. unfold select_controllers_for_dc. rewrite H. reflexivity. Qed.

(** The capacities of a selected allocation are never negative. *)
Lemma select_controllers_capacity (req : Totals) (info : ControllerInfo) :
  select_controllers_for_dc req = Some info ->
  0 <= inputs_provided info /\ 0 <= outputs_provided info.
Proof.
  destruct (select_controllers_spec req) as [[[a b] c] (Hb & _ & Heq & _)].
  rewrite Heq. intros E. inversion E; subst. simpl in *. lia.
Qed.

Lemma increase_readers (f : Field) (d : DCDevice) :
  f <> SmartCard -> f <> Fingerprint ->
  readers (calculate_totals (increase f d)) = readers (calculate_totals d).
Proof. intros H1 H2. destruct f; try contradiction; reflexivity. Qed.

Lemma increase_inputs_outputs (f : Field) (d : DCDevice) :
  inputs (calculate_totals d) <= inputs (calculate_totals (increase f d)) /\
  outputs (calculate_totals d) <= outputs (calculate_totals (increase f d)).
Proof. destruct f; simpl; lia. Qed.

(** C2, as amended: for a tally of non-negative counts, raising by one any
    of the nine counts that are not readers (every count except
    [smart_card] and [fingerprint]) never lowers the line's total cost, as
    long as the raised input and output demands stay below [2 ^ 53]. *)
Theorem total_cost_monotone_io (d : DCDevice) (f : Field) :
  valid_tally d -> f <> SmartCard -> f <> Fingerprint ->
  inputs (calculate_totals (increase f d)) < 2 ^ 53 ->
  outputs (calculate_totals (increase f d)) < 2 ^ 53 ->
  exists r r',
    calculate_single_dc_line d = Ok (Some r) /\
    calculate_single_dc_line (increase f d) = Ok (Some r') /\
    total_cost r <= total_cost r'.
Proof.
  intros Hv Hf1 Hf2 Hin Hout.
  unfold calculate_single_dc_line, calculate_single_dc_line_with.
  rewrite (select_controllers_by_readers (calculate_totals (increase f d))
             (calculate_totals d)) by (apply increase_readers; assumption).
  destruct (select_controllers_spec (calculate_totals d)) as [t (_ & _ & Heq & _)].
  set (info := controller_info_of (readers (calculate_totals d)) t) in *.
  pose proof (select_controllers_capacity _ _ Heq) as [Hci Hco].
  rewrite Heq.
  destruct (increase_inputs_outputs f d) as [Hi Ho].
  assert (Hnn : 0 <= inputs (calculate_totals (increase f d)) /\
                0 <= outputs (calculate_totals (increase f d))).
  { destruct Hv as (?&?&?&?&?&?&?&?&?&?&?). destruct f; simpl; lia. }
  destruct (calculate_expansion_monotone
              (inputs (calculate_totals d)) (outputs (calculate_totals d))
              (inputs (calculate_totals (increase f d)))
              (outputs (calculate_totals (increase f d)))
              (inputs_provided info) (outputs_provided info))
    as [e [e' (He & He' & Hle)]].
  - exact Hi.
  - exact Ho.
  - apply Z.max_lub_lt; lia.
  - apply Z.max_lub_lt; lia.
  - rewrite He, He'. cbn [bind]. eexists. eexists.
    split; [reflexivity|]. split; [reflexivity|]. cbn [total_cost]. lia.
Qed.

Lemma total_cost_monotone_io_witness :
  exists r r',
    calculate_single_dc_line line_8_inputs = Ok (Some r) /\
    calculate_single_dc_line (increase DoorSensor line_8_inputs) = Ok (Some r') /\
    total_cost r <= total_cost r'.
Proof.
  apply (total_cost_monotone_io line_8_inputs DoorSensor).
  - unfold valid_tally; simpl; lia.
  - discriminate.
  - discriminate.
  - simpl; lia.
  - simpl; lia.
Defined.

(** C2 fails as stated: one more smart-card reader replaces the kt-1 (4
    inputs) by a kt-2 (8 inputs), the expansion module is no longer needed
    and the total drops from 897 to 750. *)
Lemma total_cost_not_monotone :
  valid_tally line_8_inputs /\
  exists r r',
    calculate_single_dc_line line_8_inputs = Ok (Some r) /\
    calculate_single_dc_line (increase SmartCard line_8_inputs) = Ok (Some r') /\
    total_cost r = 897 /\ total_cost r' = 750 /\
    total_cost r' < total_cost r.
Proof.
  split; [unfold valid_tally; simpl; lia|].
  eexists. eexists. split; [vm_compute; reflexivity|].
  split; [vm_compute; reflexivity|].
  cbn [total_cost]. lia.
Qed.
(** ** The fleet *)

Lemma fold_left_accumulate (rs : list LineResult) (t : FleetTotals) :
  fold_left accumulate rs t =
  {| grand_total_cost := grand_total_cost t + grand_total_cost (totals_of rs);
     total_kt400 := total_kt400 t + total_kt400 (totals_of rs);
     total_kt2 := total_kt2 t + total_kt2 (totals_of rs);
     total_kt1 := total_kt1 t + total_kt1 (totals_of rs);
     total_expansion_cost :=
       total_expansion_cost t + total_expansion_cost (totals_of rs) |}.
Proof.
  revert t. induction rs as [|r rs IH]; intros t.
  - destruct t. simpl. f_equal; lia.
  - simpl fold_left. rewrite IH. unfold accumulate, totals_of. simpl. f_equal; lia.
Qed.

Lemma fold_left_accumulate_init (rs : list LineResult) :
  fold_left accumulate rs totals_init = totals_of rs.
Proof. rewrite fold_left_accumulate. unfold totals_init, totals_of. simpl. reflexivity. Qed.

Section FleetLoop.

Variable select : Totals -> option ControllerInfo.

(** The first loop keeps, in order, the results of the lines that have
    one. *)
Lemma fold_left_collect (dc_lines : list DCDevice)
    (outcomes : list (option LineResult)) (acc : list LineResult) :
  Forall2 (fun l o => calculate_single_dc_line_with select l = Ok o)
          dc_lines outcomes ->
  fold_left (collect_line select) dc_lines (Ok acc) =
  Ok (acc ++ kept outcomes)%list.
Proof.
  intros H. revert acc. induction H as [|l o ls os Hl _ IH]; intros acc.
  - simpl. rewrite app_nil_r. reflexivity.
  - cbn [fold_left].
    assert (Hstep : collect_line select (Ok acc) l =
                    Ok (acc ++ kept [o])%list).
    { unfold collect_line. cbn [bind]. rewrite Hl. cbn [bind].
      destruct o; simpl; [|rewrite app_nil_r]; reflexivity. }
    rewrite Hstep, IH. rewrite <- app_assoc.
    destruct o; reflexivity.
Qed.

Lemma calculate_all_dc_lines_with_spec (dc_lines : list DCDevice)
    (outcomes : list (option LineResult)) :
  Forall2 (fun l o => calculate_single_dc_line_with select l = Ok o)
          dc_lines outcomes ->
  calculate_all_dc_lines_with select dc_lines =
  match kept outcomes with
  | [] => Ok None
  | rs => Ok (Some {| all_results := rs; totals := totals_of rs |})
  end.
Proof.
  intros H. unfold calculate_all_dc_lines_with.
  destruct dc_lines as [|l ls].
  - inversion H; subst. reflexivity.
  - rewrite (fold_left_collect _ _ [] H). cbn [bind app].
    destruct (kept outcomes) as [|r rs]; [reflexivity|].
    rewrite fold_left_accumulate_init. reflexivity.
Qed.

End FleetLoop.
Lemma same_devices_totals (d1 d2 : DCDevice) :
  same_devices d1 d2 -> calculate_totals d1 = calculate_totals d2.
Proof.
  intros (?&?&?&?&?&?&?&?&?&?&?). unfold calculate_totals. congruence.
Qed.

Lemma same_devices_total_cost (d1 d2 : DCDevice) (r1 r2 : LineResult) :
  same_devices d1 d2 ->
  calculate_single_dc_line d1 = Ok (Some r1) ->
  calculate_single_dc_line d2 = Ok (Some r2) ->
  total_cost r2 = total_cost r1.
Proof.
  intros Hs. unfold calculate_single_dc_line, calculate_single_dc_line_with.
  rewrite (same_devices_totals _ _ Hs).
  destruct (select_controllers_for_dc (calculate_totals d2)) as [info|];
    [|discriminate].
  destruct (calculate_expansion_for_dc _ _ _ _) as [e|x]; cbn [bind];
    [|discriminate].
  intros E1 E2. inversion E1; inversion E2; subst. reflexivity.
Qed.

Lemma kept_map_Some (rs : list LineResult) : kept (map Some rs) = rs.
Proof. induction rs as [|r rs IH]; simpl; [|rewrite IH]; reflexivity. Qed.

Lemma Forall2_map_Some (dc_lines : list DCDevice) (results : list LineResult) :
  Forall2 (fun l r => calculate_single_dc_line l = Ok (Some r)) dc_lines results ->
  Forall2 (fun l o => calculate_single_dc_line l = Ok o) dc_lines (map Some results).
Proof. induction 1; simpl; constructor; auto. Qed.

(** C8: each line's result is the single-line calculation of that line
    alone, and the fleet's controller counts per variant, expansion cost and
    grand total are the sums of the line results' fields; for lines with the
    same device counts the grand total is the number of lines times the
    single-line total. *)
Theorem fleet_totals_are_sums (dc_lines : list DCDevice)
    (results : list LineResult) :
  dc_lines <> [] ->
  Forall2 (fun l r => calculate_single_dc_line l = Ok (Some r)) dc_lines results ->
  calculate_all_dc_lines dc_lines =
    Ok (Some {| all_results := results;
                totals :=
                  {| grand_total_cost := sum_Z (map total_cost results);
                     total_kt400 :=
                       sum_Z (map (fun r => kt400 (controllers r)) results);
                     total_kt2 :=
                       sum_Z (map (fun r => kt2 (controllers r)) results);
                     total_kt1 :=
                       sum_Z (map (fun r => kt1 (controllers r)) results);
                     total_expansion_cost :=
                       sum_Z (map (fun r => expansion_cost (expansion r))
                                  results) |} |}) /\
  (forall l0 r0,
     calculate_single_dc_line l0 = Ok (Some r0) ->
     Forall (same_devices l0) dc_lines ->
     sum_Z (map total_cost results) =
     Z.of_nat (List.length dc_lines) * total_cost r0).
Proof.
  intros Hne H. split.
  - unfold calculate_all_dc_lines.
    rewrite (calculate_all_dc_lines_with_spec _ _ _ (Forall2_map_Some _ _ H)).
    rewrite kept_map_Some.
    destruct H as [|l r ls rs Hl Hrest]; [contradiction|]. reflexivity.
  - intros l0 r0 H0 Hsame. clear Hne.
    induction H as [|l r ls rs Hl _ IH].
    + simpl. lia.
    + inversion Hsame; subst.
      cbn [map sum_Z fold_right List.length]. fold (sum_Z (map total_cost rs)).
      rewrite IH by assumption.
      rewrite (same_devices_total_cost l0 l r0 r) by assumption.
      lia.
Qed.

Lemma fleet_totals_are_sums_witness :
  exists res r0,
    calculate_all_dc_lines [scenario_line 1; scenario_line 2; scenario_line 3] =
      Ok (Some res) /\
    calculate_single_dc_line (scenario_line 1) = Ok (Some r0) /\
    grand_total_cost (totals res) = 3 * total_cost r0 /\
    total_kt2 (totals res) = 3.
Proof.
  assert (Hr : forall n, exists r,
             calculate_single_dc_line (scenario_line n) = Ok (Some r) /\
             kt2 (controllers r) = 1).
  { intros n. eexists. split; [vm_compute; reflexivity|]. reflexivity. }
  destruct (Hr 1) as [r1 (H1 & K1)].
  destruct (Hr 2) as [r2 (H2 & K2)].
  destruct (Hr 3) as [r3 (H3 & K3)].
  destruct (fleet_totals_are_sums
              [scenario_line 1; scenario_line 2; scenario_line 3] [r1; r2; r3])
    as [Heq Hid].
  - discriminate.
  - repeat constructor; assumption.
  - eexists. exists r1. split; [exact Heq|]. split; [exact H1|].
    cbn [totals grand_total_cost total_kt2]. split.
    + apply (Hid (scenario_line 1) r1 H1).
      repeat constructor.
    + cbn [map sum_Z fold_right]. lia.
Defined.
Lemma calculate_single_dc_line_never_none (l : DCDevice) :
  calculate_single_dc_line l <> Ok None.
Proof.
  unfold calculate_single_dc_line, calculate_single_dc_line_with.
  destruct (select_controllers_spec (calculate_totals l)) as [t (_ & _ & Heq & _)].
  rewrite Heq.
  destruct (calculate_expansion_for_dc _ _ _ _); cbn [bind]; discriminate.
Qed.

(** ** The fallback tier on large shortages *)

Lemma uncovered_wide (i o : Z) : 32 < i \/ 32 < o -> uncovered i o.
Proof.
  intros H. split.
  - intros m Hm [Hi Ho]. pose proof (catalog_capacities m Hm). lia.
  - intros m1 m2 H1 H2 [Hi Ho].
    pose proof (catalog_capacities m1 H1). pose proof (catalog_capacities m2 H2).
    lia.
Qed.

(** C6 at two inputs: no one or two modules cover [2 ^ 58 + 16] missing
    inputs, and the fallback charges 18014398509481984 in16 units where the
    ceiling of the quotient by 16 is 18014398509481985; the units charged
    provide fewer inputs than are missing.  At [2 ^ 1028] missing inputs the
    division raises [OverflowError] and no allocation is produced. *)
Theorem expansion_fallback_float_rounding :
  uncovered 288230376151711760 0 /\
  calculate_expansion_for_dc 288230376151711760 0 0 0 =
    Ok {| modules := ["in16 (x18014398509481984)"];
          expansion_cost := 470 * 18014398509481984 |} /\
  fallback_cost 288230376151711760 0 = 470 * 18014398509481985 /\
  18014398509481984 * 16 < 288230376151711760 /\
  (exists r, calculate_single_dc_line line_huge_inputs = Ok (Some r) /\
             expansion_cost (expansion r) = 470 * 18014398509481984) /\
  uncovered (2 ^ 1028) 0 /\
  calculate_expansion_for_dc (2 ^ 1028) 0 0 0 = Raise OverflowError.
Proof.
  split; [apply uncovered_wide; lia|].
  split; [vm_compute; reflexivity|].
  split; [vm_compute; reflexivity|].
  split; [lia|].
  split; [eexists; split; vm_compute; reflexivity|].
  split; [apply uncovered_wide; left|vm_compute; reflexivity].
  apply Z.lt_le_trans with (2 ^ 6); [reflexivity|].
  apply Z.pow_le_mono_r; lia.
Qed.
(** ** Closed form of the controller selection *)

Lemma cheapest_triple_unique (r a b c : Z) :
  0 <= r -> 0 <= a -> 0 <= b -> 0 <= c ->
  a * 4 + b * 2 + c * 1 >= r ->
  a * 1400 + b * 750 + c * 450 <=
    (r / 4) * 1400 + ((r mod 4) / 2) * 750 + (r mod 2) * 450 ->
  a = r / 4 /\ b = (r mod 4) / 2 /\ c = r mod 2.
Proof.
  intros Hr Ha Hb Hc Hfeas Hcost.
  pose proof (Z.div_mod r 4 ltac:(lia)) as Hdm.
  pose proof (Z.mod_pos_bound r 4 ltac:(lia)) as Hs.
  assert (Hs1 : r mod 2 = (r mod 4) mod 2).
  { symmetry. apply Z.mod_mod_divide. exists 2. reflexivity. }
  rewrite Hs1 in *.
  set (q := r / 4) in *. set (s := r mod 4) in *.
  assert (Hcase : s = 0 \/ s = 1 \/ s = 2 \/ s = 3) by lia.
  destruct Hcase as [E | [E | [E | E]]]; rewrite E in *;
    cbn in Hcost |- *; lia.
Qed.

(** The combination chosen for a non-negative demand. *)
Lemma select_controllers_closed (req : Totals) :
  0 <= readers req ->
  select_controllers_for_dc req =
  Some (controller_info_of (readers req)
          (readers req / 4, (readers req mod 4) / 2, readers req mod 2)).
Proof.
  intros Hr.
  destruct (select_controllers_spec req) as [[[a b] c] (Hb & Hf & Heq & Hmin)].
  rewrite Heq. do 2 f_equal.
  set (r := readers req) in *.
  pose proof (Z.div_mod r 4 ltac:(lia)) as Hdm.
  pose proof (Z.mod_pos_bound r 4 ltac:(lia)) as Hs.
  pose proof (Z.mod_pos_bound r 2 ltac:(lia)) as Hs1.
  assert (Hs2 : 0 <= (r mod 4) / 2 <= 1).
  { split; [apply Z.div_pos; lia|].
    assert ((r mod 4) / 2 < 2) by (apply Z.div_lt_upper_bound; lia). lia. }
  assert (Hq : 0 <= r / 4) by (apply Z.div_pos; lia).
  assert (Hsplit : r mod 4 = 2 * ((r mod 4) / 2) + r mod 2).
  { rewrite <- (Z.mod_mod_divide r 4 2) by (exists 2; reflexivity).
    apply Z.div_mod. lia. }
  specialize (Hmin (r / 4, (r mod 4) / 2, r mod 2)).
  unfold in_bounds, triple_readers, triple_cost, max_kt400, max_kt2, max_kt1 in *.
  destruct (cheapest_triple_unique r a b c) as (-> & -> & ->); try lia.
  reflexivity.
Qed.

(** The allocation chosen for a demand that is not positive. *)
Lemma select_controllers_zero (req : Totals) :
  readers req <= 0 ->
  select_controllers_for_dc req =
  Some (controller_info_of (readers req) (0, 0, 0)).
Proof.
  intros Hr.
  destruct (select_controllers_spec req) as [[[a b] c] (Hb & Hf & Heq & Hmin)].
  rewrite Heq. do 2 f_equal.
  specialize (Hmin (0, 0, 0)).
  unfold in_bounds, triple_readers, triple_cost, max_kt400, max_kt2, max_kt1 in *.
  assert (a = 0 /\ b = 0 /\ c = 0) as (-> & -> & ->) by lia.
  reflexivity.
Qed.
(** X1: for a reader demand [r >= 0] the selector returns [r / 4] kt-400,
    one kt-2 when [r mod 4] is 2 or 3 and one kt-1 when [r] is odd; this
    allocation provides exactly [r] readers (no spare reader), [4 * r]
    inputs and [r + r mod 2] outputs. *)
Theorem select_controllers_exact (req : Totals) :
  0 <= readers req ->
  exists info, select_controllers_for_dc req = Some info /\
    kt400 info = readers req / 4 /\
    kt2 info = (readers req mod 4) / 2 /\
    kt1 info = readers req mod 2 /\
    readers_provided info = readers req /\
    extra_readers info = 0 /\
    inputs_provided info = 4 * readers req /\
    outputs_provided info = readers req + readers req mod 2 /\
    cost info = 1400 * (readers req / 4) + 750 * ((readers req mod 4) / 2) +
                450 * (readers req mod 2).
Proof.
  intros Hr. eexists. split; [apply select_controllers_closed; exact Hr|].
  cbn [controller_info_of kt400 kt2 kt1 readers_provided extra_readers
       inputs_provided outputs_provided cost triple_readers triple_cost].
  set (r := readers req) in *.
  repeat split; Z.div_mod_to_equations; lia.
Qed.

Lemma select_controllers_exact_witness :
  exists info,
    select_controllers_for_dc {| readers := 7; inputs := 30; outputs := 9 |} =
      Some info /\
    kt400 info = 1 /\ kt2 info = 1 /\ kt1 info = 1 /\
    readers_provided info = 7 /\ extra_readers info = 0 /\
    inputs_provided info = 28 /\ outputs_provided info = 8 /\
    cost info = 2600.
Proof.
  destruct (select_controllers_exact {| readers := 7; inputs := 30; outputs := 9 |})
    as [info H]; [simpl; lia|].
  exists info. exact H.
Defined.

(** X2: for a reader demand that is zero or negative the selector returns
    the allocation without any unit, at cost 0, and reports [- r] spare
    readers. *)
Theorem select_controllers_nonpositive (req : Totals) :
  readers req <= 0 ->
  exists info, select_controllers_for_dc req = Some info /\
    kt400 info = 0 /\ kt2 info = 0 /\ kt1 info = 0 /\
    readers_provided info = 0 /\ cost info = 0 /\
    extra_readers info = - readers req /\
    inputs_provided info = 0 /\ outputs_provided info = 0.
Proof.
  intros Hr. eexists. split; [apply select_controllers_zero; exact Hr|].
  cbn. repeat split; lia.
Qed.

Lemma select_controllers_nonpositive_witness :
  exists info,
    select_controllers_for_dc {| readers := -3; inputs := 2; outputs := 2 |} =
      Some info /\
    kt400 info = 0 /\ kt2 info = 0 /\ kt1 info = 0 /\
    readers_provided info = 0 /\ cost info = 0 /\
    extra_readers info = 3 /\
    inputs_provided info = 0 /\ outputs_provided info = 0.
Proof.
  destruct (select_controllers_nonpositive
              {| readers := -3; inputs := 2; outputs := 2 |})
    as [info H]; [simpl; lia|].
  exists info. exact H.
Defined.

(** X3: one more reader always costs more controllers: for [r >= 0] the
    controller cost at demand [r + 1] is strictly above the cost at [r]. *)
Theorem controller_cost_increasing (req req' : Totals) :
  0 <= readers req -> readers req' = readers req + 1 ->
  exists info info',
    select_controllers_for_dc req = Some info /\
    select_controllers_for_dc req' = Some info' /\
    cost info < cost info'.
Proof.
  intros Hr Hs. eexists. eexists.
  split; [apply select_controllers_closed; exact Hr|].
  split; [apply select_controllers_closed; lia|].
  rewrite Hs. cbn [controller_info_of cost triple_cost].
  set (r := readers req) in *.
  Z.div_mod_to_equations. lia.
Qed.

Lemma controller_cost_increasing_witness :
  exists info info',
    select_controllers_for_dc {| readers := 3; inputs := 0; outputs := 0 |} =
      Some info /\
    select_controllers_for_dc {| readers := 4; inputs := 0; outputs := 0 |} =
      Some info' /\
    cost info < cost info'.
Proof.
  apply (controller_cost_increasing
           {| readers := 3; inputs := 0; outputs := 0 |}
           {| readers := 4; inputs := 0; outputs := 0 |}).
  - simpl; lia.
  - reflexivity.
Defined.
(** ** The price schedule of the expansion selector *)

Ltac catalog_cases H :=
  unfold expansion_modules in H; simpl in H;
  repeat (destruct H as [H | H]; [subst | ]); [ .. | contradiction ].

Lemma ceil_div_4_bounds (o : Z) :
  0 <= o -> 0 <= ceil_div o 4 /\ o <= 4 * ceil_div o 4 < o + 4.
Proof. intros Ho. unfold ceil_div. Z.div_mod_to_equations. lia. Qed.

Lemma single_covers_span (i o : Z) (m : ExpansionModule) :
  0 <= i -> 0 <= o -> In m expansion_modules -> single_covers i o m ->
  span i o <= 16.
Proof.
  intros Hi Ho Hm [Hci Hco]. unfold span.
  pose proof (ceil_div_4_bounds o Ho) as HK.
  catalog_cases Hm; simpl in Hci, Hco; lia.
Qed.

Lemma pair_covers_span (i o : Z) (m1 m2 : ExpansionModule) :
  0 <= i -> 0 <= o -> In m1 expansion_modules -> In m2 expansion_modules ->
  pair_covers i o m1 m2 -> span i o <= 32.
Proof.
  intros Hi Ho H1 H2 [Hci Hco]. unfold span.
  pose proof (ceil_div_4_bounds o Ho) as HK.
  catalog_cases H1; catalog_cases H2; simpl in Hci, Hco; lia.
Qed.

Lemma span_single_cover (i o : Z) :
  0 <= i -> 0 <= o -> span i o <= 16 ->
  exists m, In m expansion_modules /\ single_covers i o m /\ em_cost m = 447.
Proof.
  intros Hi Ho Hs. unfold span in Hs.
  pose proof (ceil_div_4_bounds o Ho) as HK.
  set (K := ceil_div o 4) in *.
  assert (HKc : K = 0 \/ K = 1 \/ K = 2 \/ K = 3 \/ K = 4) by lia.
  destruct HKc as [E | [E | [E | [E | E]]]]; rewrite E in *.
  - exists {| em_name := "inout16 (16/0)"; em_inputs := 16; em_outputs := 0;
              em_cost := 447 |}.
    split; [simpl; tauto|]. split; [unfold single_covers; simpl; lia | reflexivity].
  - exists {| em_name := "inout16 (12/4)"; em_inputs := 12; em_outputs := 4;
              em_cost := 447 |}.
    split; [simpl; tauto|]. split; [unfold single_covers; simpl; lia | reflexivity].
  - exists {| em_name := "inout16 (8/8)"; em_inputs := 8; em_outputs := 8;
              em_cost := 447 |}.
    split; [simpl; tauto|]. split; [unfold single_covers; simpl; lia | reflexivity].
  - exists {| em_name := "inout16 (4/12)"; em_inputs := 4; em_outputs := 12;
              em_cost := 447 |}.
    split; [simpl; tauto|]. split; [unfold single_covers; simpl; lia | reflexivity].
  - exists {| em_name := "inout16 (0/16)"; em_inputs := 0; em_outputs := 16;
              em_cost := 447 |}.
    split; [simpl; tauto|]. split; [unfold single_covers; simpl; lia | reflexivity].
Qed.

Lemma span_pair_cover (i o : Z) :
  0 <= i -> 0 <= o -> span i o <= 32 ->
  exists m1 m2, In m1 expansion_modules /\ In m2 expansion_modules /\
    pair_covers i o m1 m2 /\ em_cost m1 + em_cost m2 = 894.
Proof.
  intros Hi Ho Hs.
  destruct (Z_le_gt_dec o 16) as [Hlow | Hhigh].
  - (* the outputs fit one module next to a 16/0 module *)
    destruct (span_single_cover (Z.max 0 (i - 16)) o) as [m (Hm & [Hci Hco] & Hc)];
      [lia | lia | |].
    + unfold span in *. pose proof (ceil_div_4_bounds o Ho). lia.
    + exists {| em_name := "inout16 (16/0)"; em_inputs := 16; em_outputs := 0;
                em_cost := 447 |}, m.
      split; [simpl; tauto|]. split; [exact Hm|].
      split; [unfold pair_covers; cbn [em_inputs em_outputs]; lia
             | cbn [em_cost]; lia].
  - (* a 0/16 module takes sixteen of the outputs *)
    destruct (span_single_cover i (o - 16)) as [m (Hm & [Hci Hco] & Hc)];
      [lia | lia | |].
    + unfold span in *. pose proof (ceil_div_4_bounds o Ho).
      pose proof (ceil_div_4_bounds (o - 16) ltac:(lia)). lia.
    + exists {| em_name := "inout16 (0/16)"; em_inputs := 0; em_outputs := 16;
                em_cost := 447 |}, m.
      split; [simpl; tauto|]. split; [exact Hm|].
      split; [unfold pair_covers; cbn [em_inputs em_outputs]; lia
             | cbn [em_cost]; lia].
Qed.

(** X4: for shortages below [2 ^ 53] the expansion selector always returns
    an allocation, and its cost follows a fixed schedule: 0 when nothing is
    missing; 447 when the missing inputs plus the missing outputs rounded up
    to a multiple of four fit in 16; 894 when they fit in 32; otherwise 470
    per in16 unit (16 inputs each) plus 470 per r8 unit (8 outputs each).
    The in16 and r8 modules are never what the search tiers charge. *)
Theorem expansion_price_schedule
    (dc_inputs dc_outputs controller_inputs controller_outputs : Z) :
  let i := Z.max 0 (dc_inputs - controller_inputs) in
  let o := Z.max 0 (dc_outputs - controller_outputs) in
  i < 2 ^ 53 -> o < 2 ^ 53 ->
  exists e,
    calculate_expansion_for_dc dc_inputs dc_outputs
      controller_inputs controller_outputs = Ok e /\
    expansion_cost e =
      if (i =? 0) && (o =? 0) then 0
      else if span i o <=? 16 then 447
      else if span i o <=? 32 then 894
      else fallback_cost i o.
Proof.
  intros i o Hi Ho.
  destruct (calculate_expansion_cases dc_inputs dc_outputs
              controller_inputs controller_outputs) as [e [He Hcase]];
    [exact Hi | exact Ho |].
  fold i o in Hcase.
  assert (Hi0 : 0 <= i) by (unfold i; lia).
  assert (Ho0 : 0 <= o) by (unfold o; lia).
  exists e. split; [exact He|].
  destruct Hcase as [(Ei & Eo & Hc) | [(Hnz & Hl) | (Hnz & Hun & Hc)]].
  - rewrite Ei, Eo. exact Hc.
  - assert (Hz : (i =? 0) && (o =? 0) = false).
    { apply andb_false_iff. destruct (Z.eqb_spec i 0), (Z.eqb_spec o 0); tauto. }
    rewrite Hz.
    pose proof (least_cover_cost_bounds _ _ _ Hl) as Hb.
    destruct Hl as (Hwit & Hs & Hp).
    destruct (Z.leb_spec (span i o) 16) as [H16 | H16].
    + destruct (span_single_cover i o Hi0 Ho0 H16) as [m (Hm & Hcov & Hcost)].
      specialize (Hs m Hm Hcov). lia.
    + destruct (Z.leb_spec (span i o) 32) as [H32 | H32].
      * destruct (span_pair_cover i o Hi0 Ho0 H32) as [m1 [m2 (H1 & H2 & Hcov & Hcost)]].
        specialize (Hp m1 m2 H1 H2 Hcov).
        destruct Hwit as [[m (Hm & Hcov' & _)] | [n1 [n2 (Hn1 & Hn2 & _ & Hc)]]].
        -- pose proof (single_covers_span i o m Hi0 Ho0 Hm Hcov'). lia.
        -- pose proof (catalog_costs n1 Hn1). pose proof (catalog_costs n2 Hn2). lia.
      * exfalso.
        destruct Hwit as [[m (Hm & Hcov' & _)] | [n1 [n2 (Hn1 & Hn2 & Hcov' & _)]]].
        -- pose proof (single_covers_span i o m Hi0 Ho0 Hm Hcov'). lia.
        -- pose proof (pair_covers_span i o n1 n2 Hi0 Ho0 Hn1 Hn2 Hcov'). lia.
  - assert (Hz : (i =? 0) && (o =? 0) = false).
    { apply andb_false_iff. destruct (Z.eqb_spec i 0), (Z.eqb_spec o 0); tauto. }
    rewrite Hz. destruct Hun as [Hus Hup].
    destruct (Z.leb_spec (span i o) 16) as [H16 | H16].
    + exfalso.
      destruct (span_single_cover i o Hi0 Ho0 H16) as [m (Hm & Hcov & _)].
      exact (Hus m Hm Hcov).
    + destruct (Z.leb_spec (span i o) 32) as [H32 | H32]; [|exact Hc].
      exfalso.
      destruct (span_pair_cover i o Hi0 Ho0 H32) as [m1 [m2 (H1 & H2 & Hcov & _)]].
      exact (Hup m1 m2 H1 H2 Hcov).
Qed.

Lemma expansion_price_schedule_witness :
  exists e,
    calculate_expansion_for_dc 40 9 8 2 = Ok e /\ expansion_cost e = 1410.
Proof.
  destruct (expansion_price_schedule 40 9 8 2) as [e [He Hc]];
    [simpl; lia | simpl; lia |].
  exists e. split; [exact He|]. rewrite Hc. vm_compute. reflexivity.
Defined.

(** X5: with the controllers of a line fixed, asking for more inputs or
    more outputs never makes the expansion cheaper (shortages below
    [2 ^ 53]). *)
Theorem expansion_cost_monotone
    (dc_inputs dc_outputs dc_inputs' dc_outputs' controller_inputs
     controller_outputs : Z) :
  dc_inputs <= dc_inputs' -> dc_outputs <= dc_outputs' ->
  Z.max 0 (dc_inputs' - controller_inputs) < 2 ^ 53 ->
  Z.max 0 (dc_outputs' - controller_outputs) < 2 ^ 53 ->
  exists e e',
    calculate_expansion_for_dc dc_inputs dc_outputs
      controller_inputs controller_outputs = Ok e /\
    calculate_expansion_for_dc dc_inputs' dc_outputs'
      controller_inputs controller_outputs = Ok e' /\
    expansion_cost e <= expansion_cost e'.
Proof.
  intros Hi Ho Hbi Hbo.
  destruct (calculate_expansion_monotone dc_inputs dc_outputs dc_inputs'
              dc_outputs' controller_inputs controller_outputs Hi Ho Hbi Hbo)
    as [e [e' (He & He' & Hle)]].
  exists e, e'. repeat split; assumption.
Qed.

Lemma expansion_cost_monotone_witness :
  exists e e',
    calculate_expansion_for_dc 20 5 8 2 = Ok e /\
    calculate_expansion_for_dc 21 6 8 2 = Ok e' /\
    expansion_cost e <= expansion_cost e'.
Proof.
  apply (expansion_cost_monotone 20 5 21 6 8 2); simpl; lia.
Defined.
(** Below [2 ^ 53] the fallback returns the two unit counts as labels, each
    the exact ceiling. *)
Lemma expansion_fallback_small (i o : Z) :
  0 <= i < 2 ^ 53 -> 0 <= o < 2 ^ 53 ->
  expansion_fallback i o =
  Ok {| modules :=
          ((if i >? 0 then [("in16 (x" ++ str (ceil_div i 16) ++ ")")%string]
            else []) ++
           (if o >? 0 then [("r8 (x" ++ str (ceil_div o 8) ++ ")")%string]
            else []))%list;
        expansion_cost := fallback_cost i o |}.
Proof.
  intros Hi Ho. unfold expansion_fallback, fallback_cost.
  destruct (Z.gtb_spec i 0) as [Hi0|Hi0]; destruct (Z.gtb_spec o 0) as [Ho0|Ho0].
  - destruct (int_true_divide_exact i 4) as [f (Hf & Hc)]; [lia | lia |].
    destruct (int_true_divide_exact o 3) as [g (Hg & Hd)]; [lia | lia |].
    change (2 ^ 4) with 16 in *. change (2 ^ 3) with 8 in *.
    rewrite Hf. cbn [bind fst snd]. rewrite Hg. cbn [bind fst snd].
    rewrite Hc, Hd. reflexivity.
  - destruct (int_true_divide_exact i 4) as [f (Hf & Hc)]; [lia | lia |].
    change (2 ^ 4) with 16 in *.
    rewrite Hf. cbn [bind fst snd]. rewrite Hc. cbn [app].
    do 2 f_equal. lia.
  - destruct (int_true_divide_exact o 3) as [g (Hg & Hd)]; [lia | lia |].
    change (2 ^ 3) with 8 in *.
    cbn [bind fst snd]. rewrite Hg. cbn [bind fst snd]. rewrite Hd. reflexivity.
  - reflexivity.
Qed.

Lemma span_uncovered (i o : Z) :
  0 <= i -> 0 <= o -> 32 < span i o -> uncovered i o.
Proof.
  intros Hi Ho Hs. split.
  - intros m Hm Hc. pose proof (single_covers_span i o m Hi Ho Hm Hc). lia.
  - intros m1 m2 H1 H2 Hc.
    pose proof (pair_covers_span i o m1 m2 Hi Ho H1 H2 Hc). lia.
Qed.

(** X6: when the shortages (below [2 ^ 53]) are beyond what two modules can
    cover, the selector returns the labels "in16 (xN)" and "r8 (xM)" with
    [N] and [M] the exact ceilings of the shortages over 16 and over 8, a
    label being left out when its shortage is zero; the [N] in16 units and
    [M] r8 units do cover the shortages. *)
Theorem expansion_fallback_units
    (dc_inputs dc_outputs controller_inputs controller_outputs : Z) :
  let i := Z.max 0 (dc_inputs - controller_inputs) in
  let o := Z.max 0 (dc_outputs - controller_outputs) in
  i < 2 ^ 53 -> o < 2 ^ 53 -> 32 < span i o ->
  calculate_expansion_for_dc dc_inputs dc_outputs
    controller_inputs controller_outputs =
  Ok {| modules :=
          ((if i >? 0 then [("in16 (x" ++ str (ceil_div i 16) ++ ")")%string]
            else []) ++
           (if o >? 0 then [("r8 (x" ++ str (ceil_div o 8) ++ ")")%string]
            else []))%list;
        expansion_cost :=
          (if i >? 0 then 470 * ceil_div i 16 else 0) +
          (if o >? 0 then 470 * ceil_div o 8 else 0) |} /\
  i <= 16 * ceil_div i 16 /\ o <= 8 * ceil_div o 8.
Proof.
  intros i o Hi Ho Hs.
  assert (Hi0 : 0 <= i) by (unfold i; lia).
  assert (Ho0 : 0 <= o) by (unfold o; lia).
  split.
  - unfold calculate_expansion_for_dc. fold i o.
    assert (Hz : (i =? 0) && (o =? 0) = false).
    { apply andb_false_iff.
      destruct (Z.eqb_spec i 0) as [Ei|]; [|tauto].
      destruct (Z.eqb_spec o 0) as [Eo|]; [|tauto].
      exfalso. rewrite Ei, Eo in Hs. vm_compute in Hs. discriminate. }
    rewrite Hz.
    destruct (expansion_search_spec i o) as [[Hinf _] | [c [_ Hl]]].
    + rewrite Hinf. apply expansion_fallback_small; lia.
    + exfalso.
      apply (least_cover_not_uncovered i o i o c); try lia; [exact Hl|].
      apply span_uncovered; assumption.
  - unfold ceil_div. split; Z.div_mod_to_equations; lia.
Qed.

Lemma expansion_fallback_units_witness :
  calculate_expansion_for_dc 40 9 8 2 =
  Ok {| modules := ["in16 (x2)"; "r8 (x1)"]; expansion_cost := 1410 |}.
Proof.
  destruct (expansion_fallback_units 40 9 8 2) as [H _];
    [simpl; lia | simpl; lia | vm_compute; reflexivity |].
  exact H.
Defined.
(** ** Lines and fleets that complete *)

Lemma calculate_single_dc_line_small (d : DCDevice) :
  valid_tally d ->
  inputs (calculate_totals d) < 2 ^ 53 ->
  outputs (calculate_totals d) < 2 ^ 53 ->
  exists info e,
    select_controllers_for_dc (calculate_totals d) = Some info /\
    inputs_provided info = 4 * readers (calculate_totals d) /\
    outputs_provided info =
      readers (calculate_totals d) + readers (calculate_totals d) mod 2 /\
    calculate_expansion_for_dc (inputs (calculate_totals d))
      (outputs (calculate_totals d))
      (inputs_provided info) (outputs_provided info) = Ok e /\
    0 <= expansion_cost e /\
    calculate_single_dc_line d =
      Ok (Some {| lr_dc_number := dc_number d;
                  requirements := calculate_totals d;
                  controllers := info;
                  expansion := e;
                  total_cost := cost info + expansion_cost e |}).
Proof.
  intros Hv Hin Hout.
  assert (Hr : 0 <= readers (calculate_totals d)).
  { destruct Hv as (?&?&?&?&?&?&?&?&?&?&?). simpl. lia. }
  pose proof (select_controllers_closed (calculate_totals d) Hr) as Hsel.
  set (r := readers (calculate_totals d)) in *.
  set (info := controller_info_of r (r / 4, (r mod 4) / 2, r mod 2)) in *.
  assert (Hip : inputs_provided info = 4 * r).
  { unfold info. cbn [controller_info_of inputs_provided].
    Z.div_mod_to_equations. lia. }
  assert (Hop : outputs_provided info = r + r mod 2).
  { unfold info. cbn [controller_info_of outputs_provided].
    Z.div_mod_to_equations. lia. }
  destruct (calculate_expansion_cases (inputs (calculate_totals d))
              (outputs (calculate_totals d))
              (inputs_provided info) (outputs_provided info))
    as [e [He Hcase]].
  { rewrite Hip. lia. }
  { rewrite Hop. pose proof (Z.mod_pos_bound r 2 ltac:(lia)). lia. }
  exists info, e. repeat split; try assumption.
  - destruct Hcase as [(_ & _ & Hc) | [(_ & Hl) | (_ & _ & Hc)]].
    + lia.
    + pose proof (least_cover_cost_bounds _ _ _ Hl). lia.
    + rewrite Hc. apply fallback_cost_nonneg.
  - unfold calculate_single_dc_line, calculate_single_dc_line_with.
    rewrite Hsel, He. reflexivity.
Qed.

(** X7: a line of non-negative counts with input and output demands below
    [2 ^ 53] always gets a result: no exception and never "no controller
    combination".  Its controllers are the selector's choice for the line's
    readers, its expansion is computed against the [4 * readers] inputs and
    [readers + readers mod 2] outputs those controllers provide, and its
    total is the controller cost plus a non-negative expansion cost. *)
Theorem single_line_completes (d : DCDevice) :
  valid_tally d ->
  inputs (calculate_totals d) < 2 ^ 53 ->
  outputs (calculate_totals d) < 2 ^ 53 ->
  exists r,
    calculate_single_dc_line d = Ok (Some r) /\
    lr_dc_number r = dc_number d /\
    requirements r = calculate_totals d /\
    select_controllers_for_dc (calculate_totals d) = Some (controllers r) /\
    calculate_expansion_for_dc (inputs (calculate_totals d))
      (outputs (calculate_totals d))
      (4 * readers (calculate_totals d))
      (readers (calculate_totals d) + readers (calculate_totals d) mod 2) =
      Ok (expansion r) /\
    total_cost r = cost (controllers r) + expansion_cost (expansion r) /\
    cost (controllers r) <= total_cost r.
Proof.
  intros Hv Hin Hout.
  destruct (calculate_single_dc_line_small d Hv Hin Hout)
    as [info [e (Hsel & Hip & Hop & He & Hnn & Heq)]].
  eexists. split; [exact Heq|].
  cbn [lr_dc_number requirements controllers expansion total_cost].
  rewrite <- Hip, <- Hop.
  repeat split; try assumption. lia.
Qed.

Lemma single_line_completes_witness :
  exists r,
    calculate_single_dc_line (scenario_line 1) = Ok (Some r) /\
    total_cost r = cost (controllers r) + expansion_cost (expansion r) /\
    cost (controllers r) <= total_cost r.
Proof.
  destruct (single_line_completes (scenario_line 1))
    as [r (H1 & _ & _ & _ & _ & H2 & H3)].
  - unfold valid_tally; simpl; lia.
  - simpl; lia.
  - simpl; lia.
  - exists r. repeat split; assumption.
Defined.
Lemma fold_left_collect_raise (select : Totals -> option ControllerInfo)
    (dc_lines : list DCDevice) (x : exn) :
  fold_left (collect_line select) dc_lines (Raise x) = Raise x.
Proof. induction dc_lines as [|l ls IH]; simpl; auto. Qed.

(** A fleet calculation that ends normally went through every line. *)
Lemma fold_left_collect_inv (select : Totals -> option ControllerInfo)
    (dc_lines : list DCDevice) (acc rs : list LineResult) :
  fold_left (collect_line select) dc_lines (Ok acc) = Ok rs ->
  exists outcomes,
    Forall2 (fun l o => calculate_single_dc_line_with select l = Ok o)
            dc_lines outcomes /\
    rs = (acc ++ kept outcomes)%list.
Proof.
  revert acc. induction dc_lines as [|l ls IH]; intros acc H.
  - exists []. split; [constructor|]. simpl in *. rewrite app_nil_r. congruence.
  - cbn [fold_left] in H. unfold collect_line at 2 in H. cbn [bind] in H.
    destruct (calculate_single_dc_line_with select l) as [o|x] eqn:Hl; cbn [bind] in H.
    + destruct o as [r|].
      * destruct (IH _ H) as [os [HF Hrs]]. exists (Some r :: os).
        split; [constructor; assumption|]. rewrite Hrs. simpl.
        rewrite <- app_assoc. reflexivity.
      * destruct (IH _ H) as [os [HF Hrs]]. exists (None :: os).
        split; [constructor; assumption|]. exact Hrs.
    + rewrite fold_left_collect_raise in H. discriminate.
Qed.

Lemma calculate_all_dc_lines_inv (dc_lines : list DCDevice) (res : FleetResult) :
  calculate_all_dc_lines dc_lines = Ok (Some res) ->
  Forall2 (fun l r => calculate_single_dc_line l = Ok (Some r))
          dc_lines (all_results res) /\
  totals res = totals_of (all_results res).
Proof.
  unfold calculate_all_dc_lines, calculate_all_dc_lines_with.
  destruct dc_lines as [|l ls]; [discriminate|].
  destruct (fold_left (collect_line select_controllers_for_dc) (l :: ls) (Ok []))
    as [rs|x] eqn:Hfold; cbn [bind]; [|discriminate].
  destruct (fold_left_collect_inv _ _ _ _ Hfold) as [outcomes [HF Hrs]].
  simpl in Hrs. subst rs.
  assert (Hall : Forall2 (fun l r => calculate_single_dc_line l = Ok (Some r))
                         (l :: ls) (kept outcomes)).
  { clear Hfold. induction HF as [|d o ds os Hd _ IH]; [constructor|].
    destruct o as [r|]; [simpl; constructor; assumption|].
    exfalso. exact (calculate_single_dc_line_never_none d Hd). }
  destruct (kept outcomes) as [|r rs] eqn:Hk; [discriminate|].
  intros E. injection E as <-. cbn [all_results totals].
  split; [exact Hall | apply (fold_left_accumulate_init (r :: rs))].
Qed.

Lemma sized_lines_results (dc_lines : list DCDevice) :
  Forall sized_line dc_lines ->
  exists results,
    Forall2 (fun l r => calculate_single_dc_line l = Ok (Some r))
            dc_lines results /\
    map lr_dc_number results = map dc_number dc_lines.
Proof.
  induction 1 as [|d ds (Hv & Hi & Ho) _ [rs [HF Hn]]].
  - exists []. split; constructor.
  - destruct (calculate_single_dc_line_small d Hv Hi Ho)
      as [info [e (_ & _ & _ & _ & _ & Heq)]].
    eexists (_ :: rs). split; [constructor; [exact Heq | exact HF]|].
    simpl. rewrite Hn. reflexivity.
Qed.

(** X8: a non-empty fleet of lines with non-negative counts and demands
    below [2 ^ 53] always produces a fleet result, with exactly one line
    result per line, in the order of the lines and under their numbers. *)
Theorem fleet_completes (dc_lines : list DCDevice) :
  dc_lines <> [] -> Forall sized_line dc_lines ->
  exists res,
    calculate_all_dc_lines dc_lines = Ok (Some res) /\
    map lr_dc_number (all_results res) = map dc_number dc_lines /\
    List.length (all_results res) = List.length dc_lines.
Proof.
  intros Hne Hs.
  destruct (sized_lines_results dc_lines Hs) as [results [HF Hn]].
  unfold calculate_all_dc_lines.
  rewrite (calculate_all_dc_lines_with_spec _ _ _ (Forall2_map_Some _ _ HF)).
  rewrite kept_map_Some.
  destruct results as [|r rs].
  - inversion HF; subst. contradiction.
  - eexists. split; [reflexivity|]. cbn [all_results].
    split; [exact Hn|].
    rewrite <- (length_map lr_dc_number), Hn. apply length_map.
Qed.

Lemma fleet_completes_witness :
  exists res,
    calculate_all_dc_lines [line_8_inputs; scenario_line 2] = Ok (Some res) /\
    map lr_dc_number (all_results res) = [1; 2] /\
    List.length (all_results res) = 2%nat.
Proof.
  apply (fleet_completes [line_8_inputs; scenario_line 2]).
  - discriminate.
  - repeat constructor; simpl; lia.
Defined.
Lemma line_result_cost (l : DCDevice) (r : LineResult) :
  calculate_single_dc_line l = Ok (Some r) ->
  select_controllers_for_dc (calculate_totals l) = Some (controllers r) /\
  total_cost r =
    1400 * kt400 (controllers r) + 750 * kt2 (controllers r) +
    450 * kt1 (controllers r) + expansion_cost (expansion r).
Proof.
  unfold calculate_single_dc_line, calculate_single_dc_line_with.
  destruct (select_controllers_spec (calculate_totals l))
    as [[[a b] c] (_ & _ & Heq & _)].
  rewrite Heq.
  destruct (calculate_expansion_for_dc _ _ _ _) as [e|x]; cbn [bind];
    [|discriminate].
  intros E. injection E as <-.
  cbn [controllers total_cost expansion controller_info_of cost kt400 kt2 kt1
       triple_cost].
  split; [reflexivity | lia].
Qed.

(** X9: in every fleet result the grand total is the controller cost at
    catalog prices (1400, 750 and 450 per unit) for the summed unit counts,
    plus the total expansion cost: the figures of the summary add up. *)
Theorem fleet_grand_total_split (dc_lines : list DCDevice) (res : FleetResult) :
  calculate_all_dc_lines dc_lines = Ok (Some res) ->
  grand_total_cost (totals res) =
    total_kt400 (totals res) * 1400 + total_kt2 (totals res) * 750 +
    total_kt1 (totals res) * 450 + total_expansion_cost (totals res).
Proof.
  intros H. destruct (calculate_all_dc_lines_inv _ _ H) as [HF Ht].
  rewrite Ht. clear H Ht. unfold totals_of.
  cbn [grand_total_cost total_kt400 total_kt2 total_kt1 total_expansion_cost].
  induction HF as [|l r ls rs Hl _ IH]; [reflexivity|].
  destruct (line_result_cost l r Hl) as [_ Hc].
  cbn [map sum_Z fold_right] in *.
  fold (sum_Z (map total_cost rs)) in *.
  fold (sum_Z (map (fun r => kt400 (controllers r)) rs)) in *.
  fold (sum_Z (map (fun r => kt2 (controllers r)) rs)) in *.
  fold (sum_Z (map (fun r => kt1 (controllers r)) rs)) in *.
  fold (sum_Z (map (fun r => expansion_cost (expansion r)) rs)) in *.
  lia.
Qed.

Lemma fleet_grand_total_split_witness :
  exists res,
    calculate_all_dc_lines [line_8_inputs; scenario_line 2] = Ok (Some res) /\
    grand_total_cost (totals res) =
      total_kt400 (totals res) * 1400 + total_kt2 (totals res) * 750 +
      total_kt1 (totals res) * 450 + total_expansion_cost (totals res).
Proof.
  assert (H : exists res,
             calculate_all_dc_lines [line_8_inputs; scenario_line 2] =
             Ok (Some res)).
  { eexists. vm_compute. reflexivity. }
  destruct H as [res H]. exists res. split; [exact H|].
  apply (fleet_grand_total_split [line_8_inputs; scenario_line 2] res H).
Defined.

Lemma fold_left_count_line (dc_lines : list DCDevice) (rs : list LineResult)
    (a b c : Z) :
  Forall2 (fun l r => calculate_single_dc_line l = Ok (Some r)) dc_lines rs ->
  fold_left (count_line select_controllers_for_dc) dc_lines (a, b, c) =
  (a + sum_Z (map (fun r => kt400 (controllers r)) rs),
   b + sum_Z (map (fun r => kt2 (controllers r)) rs),
   c + sum_Z (map (fun r => kt1 (controllers r)) rs)).
Proof.
  intros HF. revert a b c. induction HF as [|l r ls rs' Hl _ IH]; intros a b c.
  - simpl. f_equal; [f_equal|]; lia.
  - destruct (line_result_cost l r Hl) as [Hsel _].
    cbn [fold_left]. unfold count_line at 2. rewrite Hsel. rewrite IH.
    unfold sum_Z. cbn [map fold_right]. f_equal; [f_equal|]; lia.
Qed.

(** X10: the controller counts that the license calculation works from are
    the counts of the fleet summary: whenever the fleet calculation gives a
    result, [calculate_total_controllers] returns its three unit totals and
    their sum. *)
Theorem controller_totals_agree (dc_lines : list DCDevice) (res : FleetResult) :
  calculate_all_dc_lines dc_lines = Ok (Some res) ->
  ct_kt400 (calculate_total_controllers dc_lines) = total_kt400 (totals res) /\
  ct_kt2 (calculate_total_controllers dc_lines) = total_kt2 (totals res) /\
  ct_kt1 (calculate_total_controllers dc_lines) = total_kt1 (totals res) /\
  total_controllers (calculate_total_controllers dc_lines) =
    total_kt400 (totals res) + total_kt2 (totals res) + total_kt1 (totals res).
Proof.
  intros H. destruct (calculate_all_dc_lines_inv _ _ H) as [HF Ht].
  rewrite Ht. unfold totals_of. cbn [total_kt400 total_kt2 total_kt1].
  unfold calculate_total_controllers, calculate_total_controllers_with.
  destruct dc_lines as [|l ls]; [discriminate H|].
  rewrite (fold_left_count_line _ _ 0 0 0 HF).
  cbn [ct_kt400 ct_kt2 ct_kt1 total_controllers]. repeat split; lia.
Qed.

Lemma controller_totals_agree_witness :
  exists res,
    calculate_all_dc_lines [line_8_inputs; scenario_line 2] = Ok (Some res) /\
    total_controllers
      (calculate_total_controllers [line_8_inputs; scenario_line 2]) =
    total_kt400 (totals res) + total_kt2 (totals res) + total_kt1 (totals res).
Proof.
  assert (H : exists res,
             calculate_all_dc_lines [line_8_inputs; scenario_line 2] =
             Ok (Some res)).
  { eexists. vm_compute. reflexivity. }
  destruct H as [res H]. exists res. split; [exact H|].
  apply (controller_totals_agree [line_8_inputs; scenario_line 2] res H).
Defined.

(** ** Licensing and readers *)

Lemma line_units_nonpositive (d : DCDevice) :
  readers (calculate_totals d) <= 0 -> line_units d = 0.
Proof.
  intros H. unfold line_units. rewrite (select_controllers_zero _ H). reflexivity.
Qed.

Lemma line_units_positive (d : DCDevice) :
  0 < readers (calculate_totals d) -> 1 <= line_units d.
Proof.
  intros H. unfold line_units.
  rewrite (select_controllers_closed (calculate_totals d)) by lia.
  cbn [controller_info_of kt400 kt2 kt1].
  set (r := readers (calculate_totals d)) in *.
  Z.div_mod_to_equations. lia.
Qed.

Lemma line_units_nonneg (d : DCDevice) : 0 <= line_units d.
Proof.
  destruct (Z_le_gt_dec (readers (calculate_totals d)) 0) as [H|H].
  - rewrite line_units_nonpositive; [lia | exact H].
  - pose proof (line_units_positive d ltac:(lia)). lia.
Qed.

Lemma fold_left_count_units (dc_lines : list DCDevice) (acc : Z * Z * Z) :
  let '(x, y, z) :=
    fold_left (count_line select_controllers_for_dc) dc_lines acc in
  let '(a, b, c) := acc in
  x + y + z = a + b + c + sum_Z (map line_units dc_lines).
Proof.
  revert acc. induction dc_lines as [|d ds IH]; intros [[a b] c].
  - simpl. lia.
  - cbn [fold_left map sum_Z fold_right].
    specialize (IH (count_line select_controllers_for_dc (a, b, c) d)).
    destruct (fold_left _ ds _) as [[x y] z].
    unfold count_line, line_units in *.
    destruct (select_controllers_for_dc (calculate_totals d)) as [info|];
      unfold sum_Z in *; lia.
Qed.

Lemma total_controllers_units (dc_lines : list DCDevice) :
  total_controllers (calculate_total_controllers dc_lines) =
  sum_Z (map line_units dc_lines).
Proof.
  unfold calculate_total_controllers, calculate_total_controllers_with.
  destruct dc_lines as [|d ds]; [reflexivity|].
  pose proof (fold_left_count_units (d :: ds) (0, 0, 0)) as H.
  destruct (fold_left _ (d :: ds) _) as [[x y] z].
  cbn [total_controllers]. lia.
Qed.

Lemma sum_units_zero (dc_lines : list DCDevice) :
  sum_Z (map line_units dc_lines) = 0 <->
  Forall (fun d => readers (calculate_totals d) <= 0) dc_lines.
Proof.
  induction dc_lines as [|d ds IH].
  - simpl. split; [constructor | reflexivity].
  - cbn [map sum_Z fold_right]. fold (sum_Z (map line_units ds)).
    assert (Hs : 0 <= sum_Z (map line_units ds)).
    { clear. induction ds as [|x xs IHx]; simpl; [lia|].
      pose proof (line_units_nonneg x). unfold sum_Z in *. lia. }
    pose proof (line_units_nonneg d) as Hd.
    split.
    + intros H. constructor.
      * destruct (Z_le_gt_dec (readers (calculate_totals d)) 0) as [Hr|Hr];
          [exact Hr|].
        pose proof (line_units_positive d ltac:(lia)). lia.
      * apply IH. lia.
    + intros H. inversion H; subst.
      rewrite line_units_nonpositive by assumption.
      apply IH in H3. lia.
Qed.

(** X11: the license calculation ends with "No controllers configured!" and
    stores no license result exactly when no line has a reader (in
    particular when there is no line at all); as soon as one line has a
    reader a license tier is decided. *)
Theorem license_absent_iff_no_reader (dc_lines : list DCDevice)
    (redundancy : bool) :
  calculate_license_requirements dc_lines redundancy = None <->
  Forall (fun d => readers (calculate_totals d) <= 0) dc_lines.
Proof.
  rewrite <- sum_units_zero, <- total_controllers_units.
  unfold calculate_license_requirements, license_decision.
  destruct (Z.eqb_spec (total_controllers (calculate_total_controllers dc_lines)) 0)
    as [E|E].
  - split; auto.
  - split; [|contradiction].
    destruct redundancy; [discriminate|].
    destruct (_ <=? 32); discriminate.
Qed.

Lemma license_absent_iff_no_reader_witness :
  calculate_license_requirements
    [line_huge_inputs] true = None /\
  calculate_license_requirements [line_8_inputs] true <> None.
Proof.
  split.
  - apply (license_absent_iff_no_reader
             [line_huge_inputs] true).
    repeat constructor. simpl. lia.
  - intros H.
    apply (license_absent_iff_no_reader [line_8_inputs] true) in H.
    inversion H; subst. simpl in *. lia.
Defined.
(** ** Entering and editing lines *)

Lemma get_set_field_same (f : Field) (v : Z) (d : DCDevice) :
  get_field f (set_field f v d) = v.
Proof. destruct f; reflexivity. Qed.

Lemma get_set_field_other (f g : Field) (v : Z) (d : DCDevice) :
  f <> g -> get_field g (set_field f v d) = get_field g d.
Proof. intros H. destruct f, g; try reflexivity; contradiction. Qed.

Lemma dc_number_set_field (f : Field) (v : Z) (d : DCDevice) :
  dc_number (set_field f v d) = dc_number d.
Proof. reflexivity. Qed.

Lemma valid_tally_fields (d : DCDevice) :
  valid_tally d <-> forall f, 0 <= get_field f d.
Proof.
  split.
  - intros (?&?&?&?&?&?&?&?&?&?&?) f. destruct f; simpl; assumption.
  - intros H. unfold valid_tally.
    pose proof (H SmartCard). pose proof (H Fingerprint).
    pose proof (H DoorSensor). pose proof (H MagneticLock).
    pose proof (H ElectricLock). pose proof (H RexButton).
    pose proof (H PushButton). pose proof (H BreakGlass).
    pose proof (H Buzzer). pose proof (H DoubleDoorLock).
    pose proof (H DdlSensors). simpl in *. tauto.
Qed.

Lemma field_eq_dec (f g : Field) : {f = g} + {f <> g}.
Proof. decide equality. Qed.

Lemma valid_tally_set_field (f : Field) (v : Z) (d : DCDevice) :
  0 <= v -> valid_tally d -> valid_tally (set_field f v d).
Proof.
  intros Hv Hd. apply valid_tally_fields. intros g.
  destruct (field_eq_dec f g) as [<- | Hne].
  - rewrite get_set_field_same. exact Hv.
  - rewrite get_set_field_other by assumption.
    apply valid_tally_fields. exact Hd.
Qed.

Lemma prompt_count_spec (entries : list Entry) :
  match prompt_count entries with
  | Some (v, rest) => 0 <= v /\ accepted entries = v :: accepted rest
  | None => accepted entries = []
  end.
Proof.
  induction entries as [|e es IH]; [reflexivity|].
  destruct e as [z| |]; simpl.
  - destruct (Z.ltb_spec z 0); [exact IH|]. split; [lia | reflexivity].
  - exact IH.
  - exact IH.
Qed.

Lemma prompt_edit_spec (current : Z) (entries : list Entry) :
  match prompt_edit current entries with
  | Some (v, rest) => v = current \/ 0 <= v
  | None => True
  end.
Proof.
  induction entries as [|e es IH]; [exact I|].
  destruct e as [z| |]; simpl.
  - destruct (Z.ltb_spec z 0); [exact IH | right; lia].
  - left. reflexivity.
  - exact IH.
Qed.

Lemma fill_fields_spec (fields : list Field) (d : DCDevice)
    (entries : list Entry) :
  NoDup fields ->
  match fill_fields fields d entries with
  | Some (d', rest) =>
      dc_number d' = dc_number d /\
      (valid_tally d -> valid_tally d') /\
      (forall g, ~ In g fields -> get_field g d' = get_field g d) /\
      (map (fun f => get_field f d') fields ++ accepted rest)%list =
        accepted entries
  | None => (List.length (accepted entries) < List.length fields)%nat
  end.
Proof.
  revert d entries. induction fields as [|f fs IH]; intros d entries Hnd.
  - simpl. split; [reflexivity|]. split; [auto|]. split; [auto | reflexivity].
  - inversion Hnd as [|? ? Hnotin Hnd']; subst.
    cbn [fill_fields].
    pose proof (prompt_count_spec entries) as Hp.
    destruct (prompt_count entries) as [[v rest]|].
    + destruct Hp as [Hv Hacc].
      specialize (IH (set_field f v d) rest Hnd').
      destruct (fill_fields fs (set_field f v d) rest) as [[d' rest']|].
      * destruct IH as (Hn & Hval & Hother & Hmap).
        split; [rewrite Hn; reflexivity|].
        split; [intros Hd; apply Hval, valid_tally_set_field; assumption|].
        split.
        -- intros g Hg. rewrite Hother by (intros Hin; apply Hg; right; exact Hin).
           apply get_set_field_other. intros ->. apply Hg. left. reflexivity.
        -- cbn [map app]. rewrite Hother by assumption.
           rewrite get_set_field_same, Hacc, Hmap. reflexivity.
      * rewrite Hacc. simpl. lia.
    + rewrite Hp. simpl. lia.
Qed.

Lemma firstn_length_app {A : Type} (l l' : list A) :
  firstn (List.length l) (l ++ l') = l.
Proof. induction l as [|x l IH]; simpl; [|rewrite IH]; reflexivity. Qed.

Lemma devices_nodup : NoDup devices.
Proof.
  unfold devices.
  repeat (constructor; [simpl; intuition discriminate|]). constructor.
Qed.

Lemma devices_all (f : Field) : In f devices.
Proof. destruct f; simpl; tauto. Qed.

(** X12: adding a line either leaves the list as it is (the entries ran out
    before eleven counts were accepted) or appends exactly one line, whose
    number is the former length plus one and whose eleven counts are, in
    prompt order, the first eleven non-negative numbers typed; negative
    numbers and text that is no number are never stored. *)
Theorem add_dc_line_appends (dc_lines : list DCDevice) (entries : list Entry) :
  (lines_of (add_dc_line_interactive dc_lines entries) = dc_lines /\
   (List.length (accepted entries) < 11)%nat) \/
  (exists d,
     lines_of (add_dc_line_interactive dc_lines entries) =
       (dc_lines ++ [d])%list /\
     dc_number d = Z.of_nat (List.length dc_lines) + 1 /\
     valid_tally d /\
     map (fun f => get_field f d) devices = firstn 11 (accepted entries)).
Proof.
  unfold add_dc_line_interactive.
  pose proof (fill_fields_spec devices
                (new_line (Z.of_nat (List.length dc_lines) + 1)) entries
                devices_nodup) as H.
  destruct (fill_fields devices _ entries) as [[d rest]|].
  - right. destruct H as (Hn & Hval & _ & Hmap). exists d.
    split; [destruct rest; reflexivity|].
    split; [exact Hn|].
    split; [apply Hval; unfold valid_tally; simpl; lia|].
    rewrite <- Hmap.
    change 11%nat with (List.length (map (fun f => get_field f d) devices)).
    symmetry. apply firstn_length_app.
  - left. split; [reflexivity | exact H].
Qed.

Lemma add_dc_line_appends_witness :
  exists d,
    lines_of (add_dc_line_interactive [scenario_line 1]
                [Number 2; Invalid; Number (-1); Number 0; Number 2; Number 2;
                 Number 0; Number 0; Number 0; Number 0; Number 0; Number 0;
                 Number 0; Blank]) = [scenario_line 1; d] /\
    dc_number d = 2 /\ valid_tally d /\
    map (fun f => get_field f d) devices = [2; 0; 2; 2; 0; 0; 0; 0; 0; 0; 0].
Proof.
  destruct (add_dc_line_appends [scenario_line 1]
              [Number 2; Invalid; Number (-1); Number 0; Number 2; Number 2;
               Number 0; Number 0; Number 0; Number 0; Number 0; Number 0;
               Number 0; Blank]) as [[_ H] | [d H]].
  - vm_compute in H. exfalso. lia.
  - exists d. exact H.
Defined.
Lemma edit_fields_spec (fields : list Field) (d : DCDevice)
    (entries : list Entry) :
  dc_number (fst (edit_fields fields d entries)) = dc_number d /\
  (valid_tally d -> valid_tally (fst (edit_fields fields d entries))).
Proof.
  revert d entries. induction fields as [|f fs IH]; intros d entries.
  - simpl. auto.
  - cbn [edit_fields].
    pose proof (prompt_edit_spec (get_field f d) entries) as Hp.
    destruct (prompt_edit (get_field f d) entries) as [[v rest]|].
    + destruct (IH (set_field f v d) rest) as [Hn Hv].
      split; [rewrite Hn; reflexivity|].
      intros Hd. apply Hv. apply valid_tally_set_field; [|exact Hd].
      destruct Hp as [-> | Hp]; [|exact Hp].
      apply valid_tally_fields. exact Hd.
    + simpl. auto.
Qed.

Lemma find_dc_line_some (n : Z) (l : list DCDevice) (d : DCDevice) :
  find_dc_line n l = Some d -> In d l /\ dc_number d = n.
Proof.
  unfold find_dc_line. intros H. apply find_some in H.
  destruct H as [Hin Heq]. apply Z.eqb_eq in Heq. auto.
Qed.

Lemma replace_dc_line_numbers (n : Z) (e : DCDevice) (l : list DCDevice) :
  dc_number e = n ->
  map dc_number (replace_dc_line n e l) = map dc_number l.
Proof.
  intros He. induction l as [|d l IH]; [reflexivity|].
  simpl. destruct (Z.eqb_spec (dc_number d) n) as [E|E].
  - simpl. congruence.
  - simpl. rewrite IH. reflexivity.
Qed.

Lemma replace_dc_line_valid (n : Z) (e : DCDevice) (l : list DCDevice) :
  valid_tally e -> Forall valid_tally l ->
  Forall valid_tally (replace_dc_line n e l).
Proof.
  intros He Hl. induction Hl as [|d l Hd Hl IH]; [constructor|].
  simpl. destruct (dc_number d =? n); constructor; assumption.
Qed.

Lemma replace_dc_line_others (n : Z) (e : DCDevice) (l : list DCDevice)
    (k : nat) (d : DCDevice) :
  nth_error l k = Some d -> dc_number d <> n ->
  nth_error (replace_dc_line n e l) k = Some d.
Proof.
  revert k. induction l as [|x l IH]; intros k Hk Hne; [destruct k; discriminate|].
  simpl. destruct (Z.eqb_spec (dc_number x) n) as [E|E].
  - destruct k as [|k]; simpl in *; [|exact Hk].
    injection Hk as ->. contradiction.
  - destruct k as [|k]; simpl in *; [exact Hk | apply IH; assumption].
Qed.

Lemma lines_of_press_enter (l : list DCDevice) (entries : list Entry) :
  lines_of (press_enter l entries) = l.
Proof. destruct entries; reflexivity. Qed.

(** What an edit does to the lines: nothing, or it replaces the first line
    carrying the entered number by an edited copy with the same number. *)
Lemma edit_dc_line_cases (dc_lines : list DCDevice) (entries : list Entry) :
  lines_of (edit_dc_line_interactive dc_lines entries) = dc_lines \/
  exists dc_num rest dc_line,
    entries = Number dc_num :: rest /\
    find_dc_line dc_num dc_lines = Some dc_line /\
    lines_of (edit_dc_line_interactive dc_lines entries) =
      replace_dc_line dc_num (fst (edit_fields devices dc_line rest)) dc_lines.
Proof.
  unfold edit_dc_line_interactive.
  destruct dc_lines as [|d0 l0]; [left; apply lines_of_press_enter|].
  destruct entries as [|[n| |] rest]; try (left; reflexivity);
    try (left; apply lines_of_press_enter).
  destruct (find_dc_line n (d0 :: l0)) as [dc_line|] eqn:Hfind;
    [|left; apply lines_of_press_enter].
  right. exists n, rest, dc_line. split; [reflexivity|]. split; [exact Hfind|].
  destruct (edit_fields devices dc_line rest) as [edited [rest'|]];
    [apply lines_of_press_enter | reflexivity].
Qed.

(** X13: editing never changes how many lines there are nor their numbers,
    keeps every count non-negative when the counts were, touches no line
    whose number differs from the number entered, and changes nothing at all
    when the first entry is not a number. *)
Theorem edit_dc_line_keeps_numbers (dc_lines : list DCDevice)
    (entries : list Entry) :
  let after := lines_of (edit_dc_line_interactive dc_lines entries) in
  map dc_number after = map dc_number dc_lines /\
  (Forall valid_tally dc_lines -> Forall valid_tally after) /\
  (forall dc_num rest k d,
     entries = Number dc_num :: rest ->
     nth_error dc_lines k = Some d -> dc_number d <> dc_num ->
     nth_error after k = Some d) /\
  (match entries with Number _ :: _ => True | _ => after = dc_lines end).
Proof.
  intros after. subst after.
  destruct (edit_dc_line_cases dc_lines entries)
    as [Heq | [n [rest [d (He & Hfind & Heq)]]]]; rewrite Heq.
  - repeat split; auto. destruct entries as [|[]]; auto.
  - destruct (find_dc_line_some _ _ _ Hfind) as [Hin Hn].
    destruct (edit_fields_spec devices d rest) as [Hnum Hval].
    split; [apply replace_dc_line_numbers; congruence|].
    split.
    + intros Hall. apply replace_dc_line_valid; [|exact Hall].
      apply Hval. rewrite Forall_forall in Hall. apply Hall, Hin.
    + split.
      * intros n' rest' k d' He' Hk Hne. rewrite He in He'.
        injection He' as <- <-. apply replace_dc_line_others; assumption.
      * rewrite He. exact I.
Qed.

Lemma edit_dc_line_keeps_numbers_witness :
  let entries := [Number 2; Number 5; Blank; Number (-4); Invalid; Number 7] in
  let after :=
    lines_of (edit_dc_line_interactive [scenario_line 1; scenario_line 2]
                entries) in
  map dc_number after = [1; 2] /\
  Forall valid_tally after /\
  nth_error after 0 = Some (scenario_line 1).
Proof.
  intros entries after.
  destruct (edit_dc_line_keeps_numbers [scenario_line 1; scenario_line 2] entries)
    as (Hn & Hv & Ho & _).
  split; [exact Hn|]. split.
  - apply Hv. repeat constructor; simpl; lia.
  - apply (Ho 2 [Number 5; Blank; Number (-4); Invalid; Number 7] 0%nat
              (scenario_line 1)).
    + reflexivity.
    + reflexivity.
    + simpl. lia.
Defined.
Lemma set_get_field (f : Field) (d : DCDevice) :
  set_field f (get_field f d) d = d.
Proof. destruct f, d; reflexivity. Qed.

Lemma edit_fields_blank (fields : list Field) (d : DCDevice)
    (rest : list Entry) :
  edit_fields fields d (repeat Blank (List.length fields) ++ rest) =
  (d, Some rest).
Proof.
  induction fields as [|f fs IH]; [reflexivity|].
  simpl. rewrite set_get_field. exact IH.
Qed.

Lemma replace_dc_line_same (n : Z) (d : DCDevice) (l : list DCDevice) :
  find_dc_line n l = Some d -> replace_dc_line n d l = l.
Proof.
  unfold find_dc_line. induction l as [|x l IH]; [discriminate|].
  simpl. destruct (dc_number x =? n).
  - intros E. injection E as ->. reflexivity.
  - intros E. rewrite IH by exact E. reflexivity.
Qed.

(** X14: answering every one of the eleven prompts of an edit with an empty
    line keeps the addressed line, and so the whole list, exactly as it
    was. *)
Theorem edit_blank_keeps_lines (dc_lines : list DCDevice) (dc_num : Z)
    (dc_line : DCDevice) (rest : list Entry) :
  find_dc_line dc_num dc_lines = Some dc_line ->
  lines_of (edit_dc_line_interactive dc_lines
              (Number dc_num :: repeat Blank 11 ++ rest)) = dc_lines.
Proof.
  intros Hfind. unfold edit_dc_line_interactive.
  destruct dc_lines as [|d0 l0]; [discriminate Hfind|].
  rewrite Hfind.
  change 11%nat with (List.length devices).
  rewrite edit_fields_blank, lines_of_press_enter.
  apply replace_dc_line_same. exact Hfind.
Qed.

Lemma edit_blank_keeps_lines_witness :
  lines_of (edit_dc_line_interactive [scenario_line 1; line_8_inputs]
              (Number 1 :: repeat Blank 11 ++ [Invalid])) =
  [scenario_line 1; line_8_inputs].
Proof.
  apply (edit_blank_keeps_lines [scenario_line 1; line_8_inputs] 1
           (scenario_line 1) [Invalid]).
  reflexivity.
Defined.

Lemma add_dc_line_lines (dc_lines : list DCDevice) (entries : list Entry) :
  lines_of (add_dc_line_interactive dc_lines entries) = dc_lines \/
  exists d,
    lines_of (add_dc_line_interactive dc_lines entries) =
      (dc_lines ++ [d])%list /\
    dc_number d = Z.of_nat (List.length dc_lines) + 1 /\ valid_tally d.
Proof.
  unfold add_dc_line_interactive.
  pose proof (fill_fields_spec devices
                (new_line (Z.of_nat (List.length dc_lines) + 1)) entries
                devices_nodup) as H.
  destruct (fill_fields devices _ entries) as [[d rest]|]; [|left; reflexivity].
  right. destruct H as (Hn & Hval & _). exists d.
  split; [apply lines_of_press_enter|]. split; [exact Hn|].
  apply Hval. unfold valid_tally; simpl; lia.
Qed.

Lemma numbered_app (l : list DCDevice) (d : DCDevice) :
  numbered l -> dc_number d = Z.of_nat (List.length l) + 1 ->
  numbered (l ++ [d]).
Proof.
  unfold numbered. intros Hl Hd.
  rewrite map_app, length_app, Hl. simpl List.length.
  rewrite Nat.add_1_r, seq_S, map_app. simpl. rewrite Hd.
  do 2 f_equal. lia.
Qed.

Lemma numbered_same_numbers (l l' : list DCDevice) :
  map dc_number l' = map dc_number l -> numbered l -> numbered l'.
Proof.
  unfold numbered. intros H Hl.
  assert (Hlen : List.length l' = List.length l).
  { rewrite <- (length_map dc_number l'), H. apply length_map. }
  rewrite H, Hlen. exact Hl.
Qed.

Lemma edit_dc_line_preserves (dc_lines : list DCDevice) (entries : list Entry) :
  map dc_number (lines_of (edit_dc_line_interactive dc_lines entries)) =
    map dc_number dc_lines /\
  (Forall valid_tally dc_lines ->
   Forall valid_tally (lines_of (edit_dc_line_interactive dc_lines entries))).
Proof.
  destruct (edit_dc_line_cases dc_lines entries)
    as [Heq | [n [rest [d (He & Hfind & Heq)]]]]; rewrite Heq; [auto|].
  destruct (find_dc_line_some _ _ _ Hfind) as [Hin Hn].
  destruct (edit_fields_spec devices d rest) as [Hnum Hval].
  split; [apply replace_dc_line_numbers; congruence|].
  intros Hall. apply replace_dc_line_valid; [|exact Hall].
  apply Hval. rewrite Forall_forall in Hall. apply Hall, Hin.
Qed.

Lemma reachable_numbered_valid (l : list DCDevice) :
  reachable l -> numbered l /\ Forall valid_tally l.
Proof.
  induction 1 as [|l entries _ [Hn Hv]|l entries _ [Hn Hv]|l entries _ _].
  - split; [reflexivity | constructor].
  - destruct (add_dc_line_lines l entries) as [-> | [d (-> & Hd & Hvd)]];
      [auto|].
    split; [apply numbered_app; assumption|].
    apply Forall_app. split; [exact Hv|]. constructor; [exact Hvd | constructor].
  - destruct (edit_dc_line_preserves l entries) as [Hnum Hval].
    split; [eapply numbered_same_numbers; eauto | auto].
  - unfold clear_all_data. rewrite lines_of_press_enter.
    split; [reflexivity | constructor].
Qed.

(** X15: whatever is typed, in whatever order lines are added, edited and
    cleared, the stored lines are always numbered 1, 2, ... in order and
    every one of their counts is non-negative: a negative count never
    reaches the calculation. *)
Theorem entered_lines_invariant (dc_lines : list DCDevice) :
  reachable dc_lines ->
  map dc_number dc_lines = map Z.of_nat (seq 1 (List.length dc_lines)) /\
  Forall valid_tally dc_lines /\
  Forall (fun d => 0 <= readers (calculate_totals d) /\
                   0 <= inputs (calculate_totals d) /\
                   0 <= outputs (calculate_totals d)) dc_lines.
Proof.
  intros H. destruct (reachable_numbered_valid dc_lines H) as [Hn Hv].
  split; [exact Hn|]. split; [exact Hv|].
  eapply Forall_impl; [|exact Hv].
  intros d (?&?&?&?&?&?&?&?&?&?&?). simpl. lia.
Qed.

Lemma entered_lines_invariant_witness :
  let l := lines_of (add_dc_line_interactive []
             [Number 1; Number (-2); Number 0; Number 8; Number 0; Number 0;
              Number 0; Number 0; Number 0; Number 0; Number 0; Number 0;
              Blank]) in
  map dc_number l = map Z.of_nat (seq 1 (List.length l)) /\
  Forall valid_tally l.
Proof.
  intros l.
  destruct (entered_lines_invariant l) as (Hn & Hv & _).
  - unfold l. apply reach_add. apply reach_init.
  - split; assumption.
Defined.

Lemma find_numbered_from (s : nat) (l : list DCDevice) :
  map dc_number l = map Z.of_nat (seq s (List.length l)) ->
  (forall k d, nth_error l k = Some d ->
     find_dc_line (Z.of_nat (s + k)) l = Some d) /\
  (forall n, n < Z.of_nat s \/ Z.of_nat (s + List.length l) <= n ->
     find_dc_line n l = None).
Proof.
  revert s. induction l as [|x l IH]; intros s H.
  - split; [intros [|k] d Hk; discriminate | reflexivity].
  - simpl in H. injection H as Hx Hl.
    destruct (IH (S s) Hl) as [IHf IHn].
    unfold find_dc_line in *. split.
    + intros [|k] d Hk.
      * simpl in Hk. injection Hk as ->. simpl.
        rewrite Hx, Nat.add_0_r, Z.eqb_refl. reflexivity.
      * simpl in Hk. specialize (IHf k d Hk).
        replace (Z.of_nat (s + S k)) with (Z.of_nat (S s + k)) by lia.
        assert (Hne : dc_number x <> Z.of_nat (S s + k)) by lia.
        set (n := Z.of_nat (S s + k)) in *. cbn [find].
        destruct (Z.eqb_spec (dc_number x) n) as [E|E];
          [contradiction | exact IHf].
    + intros n Hn. cbn [find].
      cbn [List.length] in Hn.
      destruct (Z.eqb_spec (dc_number x) n) as [E|E]; [lia|].
      apply IHn. lia.
Qed.

(** X16: in any list the menus can produce, looking a line up by number [n]
    finds the [n]-th line of the list, and a number below 1 or above the
    number of lines finds nothing ("DC Line n not found!"). *)
Theorem find_dc_line_by_position (dc_lines : list DCDevice) :
  reachable dc_lines ->
  (forall k d, nth_error dc_lines k = Some d ->
     find_dc_line (Z.of_nat k + 1) dc_lines = Some d) /\
  (forall n, n < 1 \/ Z.of_nat (List.length dc_lines) < n ->
     find_dc_line n dc_lines = None).
Proof.
  intros H. destruct (reachable_numbered_valid dc_lines H) as [Hn _].
  destruct (find_numbered_from 1 dc_lines Hn) as [Hf Hnone].
  split.
  - intros k d Hk. rewrite <- (Hf k d Hk). f_equal. lia.
  - intros n Hn'. apply Hnone. lia.
Qed.

Lemma find_dc_line_by_position_witness :
  let l := lines_of (add_dc_line_interactive []
             [Number 1; Number 0; Number 8; Number 0; Number 0; Number 0;
              Number 0; Number 0; Number 0; Number 0; Number 0; Blank]) in
  find_dc_line 1 l = nth_error l 0 /\ find_dc_line 2 l = None.
Proof.
  intros l.
  destruct (find_dc_line_by_position l) as [Hf Hn].
  - unfold l. apply reach_add. apply reach_init.
  - split.
    + symmetry. apply (Hf 0%nat line_8_inputs). reflexivity.
    + apply Hn. right. vm_compute. reflexivity.
Defined.
(** ** Export *)

Lemma length_line_rows (r : LineResult) : List.length (line_rows r) = 5%nat.
Proof. reflexivity. Qed.

Lemma length_flat_map_line_rows (rs : list LineResult) :
  List.length (flat_map line_rows rs) = (5 * List.length rs)%nat.
Proof.
  induction rs as [|r rs IH]; [reflexivity|].
  cbn [flat_map]. rewrite length_app, IH, length_line_rows. simpl. lia.
Qed.

(** X17: the export has five rows per line result (requirements,
    controllers, expansion, total, separator), then the license block when a
    license result is stored (two rows without redundancy; with redundancy
    two rows, one per add-on, and the license cost row), and always ends
    with the grand total row. *)
Theorem export_rows_layout (all_results : list LineResult) (grand_total : Z)
    (license_result : option LicenseResult) :
  List.length (export_rows all_results grand_total license_result) =
    (5 * List.length all_results +
     match license_result with
     | None => 0
     | Some license_info =>
         if use_redundancy license_info
         then 3 + List.length (additional_licenses license_info)
         else 2
     end + 1)%nat /\
  last (export_rows all_results grand_total license_result) blank_row =
    grand_total_row all_results grand_total /\
  (forall k r, nth_error all_results k = Some r ->
     firstn 5 (skipn (5 * k) (export_rows all_results grand_total license_result)) =
     line_rows r).
Proof.
  unfold export_rows. split; [|split].
  - rewrite !length_app, length_flat_map_line_rows. cbn [List.length].
    destruct license_result as [li|]; [|simpl; lia].
    unfold license_rows. rewrite length_app. cbn [List.length].
    destruct (use_redundancy li); [|simpl; lia].
    rewrite length_app, length_map. simpl. lia.
  - rewrite app_assoc. apply last_last.
  - intros k r Hk.
    generalize (license_rows license_result ++
                [grand_total_row all_results grand_total])%list as tail.
    intros tail. revert k Hk.
    induction all_results as [|x xs IH]; intros k Hk;
      [destruct k; discriminate|].
    destruct k as [|k].
    + simpl in Hk. injection Hk as ->. reflexivity.
    + simpl in Hk. specialize (IH k Hk).
      replace (5 * S k)%nat with (5 * k + 5)%nat by lia.
      cbn [flat_map]. rewrite <- app_assoc, <- skipn_skipn.
      change (skipn 5 (line_rows x ++ flat_map line_rows xs ++ tail))
        with (flat_map line_rows xs ++ tail)%list.
      exact IH.
Qed.

Lemma export_rows_layout_witness :
  exists r,
    calculate_single_dc_line (scenario_line 1) = Ok (Some r) /\
    List.length (export_rows [r] (total_cost r) None) = 6%nat /\
    firstn 5 (export_rows [r] (total_cost r) None) = line_rows r.
Proof.
  assert (H : exists r, calculate_single_dc_line (scenario_line 1) = Ok (Some r)).
  { eexists. vm_compute. reflexivity. }
  destruct H as [r H]. exists r. split; [exact H|].
  destruct (export_rows_layout [r] (total_cost r) None) as (Hlen & _ & Hrows).
  split; [exact Hlen|].
  apply (Hrows 0%nat r). reflexivity.
Defined.

Lemma line_result_total (l : DCDevice) (r : LineResult) :
  calculate_single_dc_line l = Ok (Some r) ->
  total_cost r = cost (controllers r) + expansion_cost (expansion r).
Proof.
  unfold calculate_single_dc_line, calculate_single_dc_line_with.
  destruct (select_controllers_for_dc (calculate_totals l)) as [info|];
    [|discriminate].
  destruct (calculate_expansion_for_dc _ _ _ _) as [e|x]; cbn [bind];
    [|discriminate].
  intros E. injection E as <-. reflexivity.
Qed.

Lemma sum_line_rows_total (rs : list LineResult) :
  sum_Z (map (fun row => cell_value (col_total_cost row))
             (flat_map line_rows rs)) =
  sum_Z (map total_cost rs).
Proof.
  induction rs as [|r rs IH]; [reflexivity|].
  cbn [flat_map]. rewrite map_app. unfold sum_Z in *.
  rewrite fold_right_app. cbn [map fold_right]. rewrite <- IH.
  unfold line_rows. destruct (modules (expansion r)); cbn; lia.
Qed.

Lemma sum_license_rows_total (lic : option LicenseResult) :
  sum_Z (map (fun row => cell_value (col_total_cost row)) (license_rows lic)) = 0.
Proof.
  destruct lic as [li|]; [|reflexivity].
  unfold license_rows. destruct (use_redundancy li); [|reflexivity].
  cbn [app map sum_Z fold_right license_row col_total_cost cell_value].
  rewrite map_app, map_map. unfold sum_Z. rewrite fold_right_app.
  cbn. induction (additional_licenses li) as [|a l IH]; simpl; lia.
Qed.

Lemma sum_Z_app (l1 l2 : list Z) : sum_Z (l1 ++ l2) = sum_Z l1 + sum_Z l2.
Proof. unfold sum_Z. induction l1 as [|x l1 IH]; simpl; lia. Qed.

(** X18: when the stored results come from the fleet calculation, the grand
    total row of the export is consistent with the rest: its unit counts
    are the fleet's totals, its controller cost plus its expansion cost is
    its total cost, and that total is the sum of the total-cost cells of all
    the rows above it. *)
Theorem export_grand_total_consistent (dc_lines : list DCDevice)
    (res : FleetResult) (license_result : option LicenseResult) :
  calculate_all_dc_lines dc_lines = Ok (Some res) ->
  let rows := export_rows (all_results res) (grand_total_cost (totals res))
                license_result in
  let final := last rows blank_row in
  col_kt400 final = IntCell (total_kt400 (totals res)) /\
  col_kt2 final = IntCell (total_kt2 (totals res)) /\
  col_kt1 final = IntCell (total_kt1 (totals res)) /\
  col_expansion_cost final = IntCell (total_expansion_cost (totals res)) /\
  col_total_cost final = IntCell (grand_total_cost (totals res)) /\
  cell_value (col_controller_cost final) + cell_value (col_expansion_cost final) =
    cell_value (col_total_cost final) /\
  sum_Z (map (fun row => cell_value (col_total_cost row)) (removelast rows)) =
    cell_value (col_total_cost final).
Proof.
  intros H rows final.
  destruct (calculate_all_dc_lines_inv _ _ H) as [HF Ht].
  assert (Hfinal : final = grand_total_row (all_results res)
                             (grand_total_cost (totals res))).
  { unfold final, rows, export_rows. rewrite app_assoc. apply last_last. }
  assert (Hinit : removelast rows =
                  (flat_map line_rows (all_results res) ++
                   license_rows license_result)%list).
  { unfold rows, export_rows. rewrite app_assoc. apply removelast_last. }
  rewrite Hfinal, Hinit, Ht. unfold totals_of, grand_total_row.
  cbn [col_kt400 col_kt2 col_kt1 col_expansion_cost col_total_cost
       col_controller_cost cell_value grand_total_cost total_kt400 total_kt2
       total_kt1 total_expansion_cost].
  repeat (split; [reflexivity|]).
  split.
  - clear H Ht Hfinal Hinit rows final.
    induction HF as [|l r ls rs Hl _ IH]; [reflexivity|].
    pose proof (line_result_total l r Hl) as Hc.
    unfold sum_Z in *. cbn [map fold_right]. lia.
  - rewrite map_app, sum_Z_app, sum_line_rows_total, sum_license_rows_total.
    lia.
Qed.

Lemma export_grand_total_consistent_witness :
  exists res,
    calculate_all_dc_lines [line_8_inputs; scenario_line 2] = Ok (Some res) /\
    let rows := export_rows (all_results res) (grand_total_cost (totals res))
                  None in
    sum_Z (map (fun row => cell_value (col_total_cost row)) (removelast rows)) =
      cell_value (col_total_cost (last rows blank_row)) /\
    col_total_cost (last rows blank_row) = IntCell 1647.
Proof.
  assert (H : exists res,
             calculate_all_dc_lines [line_8_inputs; scenario_line 2] =
               Ok (Some res) /\ grand_total_cost (totals res) = 1647).
  { eexists. split; vm_compute; reflexivity. }
  destruct H as [res [H Hg]]. exists res. split; [exact H|].
  destruct (export_grand_total_consistent [line_8_inputs; scenario_line 2]
              res None H) as (_ & _ & _ & _ & Ht & _ & Hs).
  split; [exact Hs|]. rewrite <- Hg. exact Ht.
Defined.

(** X19: the primary license written by the export is the name of the tier
    that the license calculation stored: "Global License" for tier
    "global", "Kantech Special License" for "special" and "Kantech Corporate
    License" for "corporate". *)
Theorem export_primary_license_matches (controller_totals : ControllerTotals)
    (redundancy : bool) (license_info : LicenseResult) :
  license_decision controller_totals redundancy = Some license_info ->
  (primary_license license_info = "global" /\
   primary_license_name license_info = "Global License") \/
  (primary_license license_info = "special" /\
   primary_license_name license_info = "Kantech Special License") \/
  (primary_license license_info = "corporate" /\
   primary_license_name license_info = "Kantech Corporate License").
Proof.
  unfold license_decision, primary_license_name.
  destruct (total_controllers controller_totals =? 0); [discriminate|].
  destruct redundancy.
  - intros E. injection E as <-. left. split; reflexivity.
  - destruct (Z.leb_spec (total_controllers controller_totals) 32) as [Hle|Hgt];
      intros E; injection E as <-;
      cbn [use_redundancy lres_total_controllers primary_license].
    + right. left. split; [reflexivity|].
      destruct (Z.leb_spec (total_controllers controller_totals) 32);
        [reflexivity | lia].
    + right. right. split; [reflexivity|].
      destruct (Z.leb_spec (total_controllers controller_totals) 32);
        [lia | reflexivity].
Qed.

Lemma export_primary_license_matches_witness :
  exists license_info,
    calculate_license_requirements [line_8_inputs] false = Some license_info /\
    primary_license license_info = "special" /\
    primary_license_name license_info = "Kantech Special License".
Proof.
  assert (H : exists li,
             calculate_license_requirements [line_8_inputs] false = Some li /\
             primary_license li = "special").
  { eexists. split; vm_compute; reflexivity. }
  destruct H as [li [H Hs]]. exists li. split; [exact H|]. split; [exact Hs|].
  destruct (export_primary_license_matches
              (calculate_total_controllers [line_8_inputs]) false li H)
    as [[Hg _] | [[_ Hn] | [Hc _]]].
  - rewrite Hs in Hg. discriminate.
  - exact Hn.
  - rewrite Hs in Hc. discriminate.
Defined.
Lemma fleet_total_controllers (dc_lines : list DCDevice) (res : FleetResult) :
  calculate_all_dc_lines dc_lines = Ok (Some res) ->
  total_controllers (calculate_total_controllers dc_lines) =
  total_kt400 (totals res) + total_kt2 (totals res) + total_kt1 (totals res).
Proof.
  intros H. destruct (calculate_all_dc_lines_inv _ _ H) as [HF Ht].
  rewrite Ht. unfold totals_of. cbn [total_kt400 total_kt2 total_kt1].
  unfold calculate_total_controllers, calculate_total_controllers_with.
  destruct dc_lines as [|l ls]; [discriminate H|].
  rewrite (fold_left_count_line _ _ 0 0 0 HF).
  cbn [total_controllers]. lia.
Qed.

(** X20: the license named at the end of the fleet summary is the primary
    license that the license calculation decides without redundancy,
    whenever that calculation decides one; but for a fleet without any
    reader the summary still names the Special license while the license
    calculation reports that no controller is configured. *)
Theorem license_reference_agrees (dc_lines : list DCDevice) (res : FleetResult) :
  calculate_all_dc_lines dc_lines = Ok (Some res) ->
  (forall license_info,
     calculate_license_requirements dc_lines false = Some license_info ->
     license_reference (totals res) = primary_license_name license_info) /\
  (Forall (fun d => readers (calculate_totals d) <= 0) dc_lines ->
   calculate_license_requirements dc_lines false = None /\
   license_reference (totals res) = "Kantech Special License").
Proof.
  intros H. pose proof (fleet_total_controllers _ _ H) as Htot.
  unfold license_reference. rewrite <- Htot. split.
  - intros li. unfold calculate_license_requirements, license_decision.
    destruct (total_controllers (calculate_total_controllers dc_lines) =? 0);
      [discriminate|].
    destruct (Z.leb_spec (total_controllers (calculate_total_controllers dc_lines))
                32) as [Hle|Hgt];
      intros E; injection E as <-; unfold primary_license_name;
      cbn [use_redundancy lres_total_controllers].
    + destruct (Z.leb_spec (total_controllers
                              (calculate_total_controllers dc_lines)) 32);
        [reflexivity | lia].
    + destruct (Z.leb_spec (total_controllers
                              (calculate_total_controllers dc_lines)) 32);
        [lia | reflexivity].
  - intros Hno.
    assert (Hz : total_controllers (calculate_total_controllers dc_lines) = 0).
    { rewrite total_controllers_units. apply sum_units_zero. exact Hno. }
    split.
    + unfold calculate_license_requirements, license_decision.
      rewrite Hz. reflexivity.
    + rewrite Hz. reflexivity.
Qed.

Lemma license_reference_agrees_witness :
  exists res,
    calculate_all_dc_lines [new_line 1] = Ok (Some res) /\
    calculate_license_requirements [new_line 1] false = None /\
    license_reference (totals res) = "Kantech Special License".
Proof.
  assert (H : exists res, calculate_all_dc_lines [new_line 1] = Ok (Some res)).
  { eexists. vm_compute. reflexivity. }
  destruct H as [res H]. exists res. split; [exact H|].
  destruct (license_reference_agrees [new_line 1] res H) as [_ Hz].
  apply Hz. repeat constructor. simpl. lia.
Defined.

(** ** No line is left out of the fleet *)



